(** * Nanny's Recipes: the OCR pipeline and the HTML builder

  A shallow embedding of [src/ocr_pipeline.py] and [src/build_html.py],
  and the properties of the two programs stated over it.

  Python [str] values are modelled by [string] (a sequence of bytes; the
  characters the code inspects are all ASCII, and an ASCII byte never
  occurs inside a multi-byte UTF-8 sequence, so byte-wise and
  code-point-wise replacement agree). *)

From Stdlib Require Import ZArith Ascii String PrimFloat SpecFloat FloatOps Uint63.
From stdpp Require Import base option list strings gmap pretty sorting.

Local Open Scope Z_scope.

(* ===================================================================== *)
(** * Python string methods used by the two programs *)
(* ===================================================================== *)

Module Py.

(** The double quote character as a one-character string. *)
Definition dq : string := String (ascii_of_nat 34) EmptyString.
(** The line feed character as a one-character string. *)
Definition nl : string := String (ascii_of_nat 10) EmptyString.

(** [s.startswith(p)] *)
Definition startswith (s p : string) : bool := String.prefix p s.

(** [s.endswith(p)] *)
Definition endswith (s p : string) : bool :=
  String.prefix (String.rev p) (String.rev s).

(** [c in chars] for a character and a string used as a character set *)
Fixpoint mem_char (c : ascii) (chars : string) : bool :=
  match chars with
  | EmptyString => false
  | String d chars' => Ascii.eqb c d || mem_char c chars'
  end.

(** [s.lstrip(chars)] *)
Fixpoint lstrip (chars s : string) : string :=
  match s with
  | EmptyString => EmptyString
  | String c s' => if mem_char c chars then lstrip chars s' else s
  end.

(** [s.rstrip(chars)] *)
Definition rstrip (chars s : string) : string :=
  String.rev (lstrip chars (String.rev s)).

(** [s.strip(chars)] *)
Definition strip (chars s : string) : string := rstrip chars (lstrip chars s).

(** The ASCII characters for which [str.isspace] holds: tab, line feed,
    vertical tab, form feed, carriage return, the four separators
    0x1c-0x1f and the space. *)
Definition whitespace : string :=
  string_of_list_ascii
    (List.map ascii_of_nat [9; 10; 11; 12; 13; 28; 29; 30; 31; 32]%nat).

(** [s.strip()] *)
Definition strip_ws (s : string) : string := strip whitespace s.

(** [s.replace(old, new)] and [s.replace(old, new, count)] for a non-empty
    [old] (every call site passes a non-empty literal): the occurrences of
    [old] are found left to right without overlap. [limit] is the number of
    replacements still allowed ([None]: no limit), [skip] the number of
    characters of a matched occurrence still to drop. *)
Fixpoint replace_go (old new : string) (limit : option nat) (skip : nat)
    (s : string) : string :=
  match s with
  | EmptyString => EmptyString
  | String c s' =>
    match skip with
    | S k => replace_go old new limit k s'
    | O =>
      match limit with
      | Some O => String c (replace_go old new limit O s')
      | _ =>
        if String.prefix old s
        then new +:+ replace_go old new (Nat.pred <$> limit)
                       (Nat.pred (String.length old)) s'
        else String c (replace_go old new limit O s')
      end
    end
  end.

Definition replace (old new s : string) : string :=
  replace_go old new None O s.

Definition replace_n (old new : string) (count : nat) (s : string) : string :=
  replace_go old new (Some count) O s.

(** [s.count(sub)] for a non-empty [sub]: non-overlapping occurrences. *)
Fixpoint count_go (sub : string) (skip : nat) (s : string) : nat :=
  match s with
  | EmptyString => O
  | String c s' =>
    match skip with
    | S k => count_go sub k s'
    | O =>
      if String.prefix sub s
      then S (count_go sub (Nat.pred (String.length sub)) s')
      else count_go sub O s'
    end
  end.

Definition count (sub s : string) : nat := count_go sub O s.

(** [sub in s] *)
Fixpoint contains (sub s : string) : bool :=
  String.prefix sub s ||
  match s with
  | EmptyString => false
  | String _ s' => contains sub s'
  end.

(** [s.split(sep)] for a non-empty [sep]: the first piece and the pieces
    after it. *)
Fixpoint split_go (sep : string) (skip : nat) (s : string)
    : string * list string :=
  match s with
  | EmptyString => (EmptyString, [])
  | String c s' =>
    match skip with
    | S k => split_go sep k s'
    | O =>
      if String.prefix sep s
      then let '(h, t) := split_go sep (Nat.pred (String.length sep)) s' in
           (EmptyString, h :: t)
      else let '(h, t) := split_go sep O s' in (String c h, t)
    end
  end.

Definition split (sep s : string) : list string :=
  let '(h, t) := split_go sep O s in h :: t.

(** [sep.join(parts)] *)
Definition join (sep : string) (parts : list string) : string :=
  String.concat sep parts.

(** [s.lower()] on the ASCII letters. *)
Definition lower_char (c : ascii) : ascii :=
  let n := nat_of_ascii c in
  if (65 <=? n)%nat && (n <=? 90)%nat then ascii_of_nat (n + 32) else c.

Fixpoint lower (s : string) : string :=
  match s with
  | EmptyString => EmptyString
  | String c s' => String (lower_char c) (lower s')
  end.

(** [bool(s)]: a string is true when it is not empty. *)
Definition truthy (s : string) : bool :=
  match s with EmptyString => false | _ => true end.

End Py.

(* ===================================================================== *)
(** * build_html.py *)
(* ===================================================================== *)

Module Html.
Import Py.

(** [escape_html] (lines 69-76): five successive [str.replace] calls. *)
Definition escape_html (text : string) : string :=
  replace nl "<br>"
    (replace dq "&quot;"
      (replace ">" "&gt;"
        (replace "<" "&lt;"
          (replace "&" "&amp;" text)))).

(** A recipe of [recipes.json] as [build_recipe_card] reads it (lines
    81-87): [id], [title] and [type] are required keys, the other fields
    are read with [dict.get] and hold the default ([[]] or the empty
    string) when the key is absent. *)
Record recipe := {
  recipe_id : string;
  recipe_title : string;
  recipe_type : string;
  recipe_ingredients : list string;
  recipe_method : string;
  recipe_notes : string;
  recipe_source_images : list string
}.

(** The [type_class] dictionary of line 90. *)
Definition type_class : gmap string string :=
  <["typed" := "badge-typed"]>
    (<["handwritten" := "badge-handwritten"]>
      (<["mixed" := "badge-mixed"]> ∅)).

(** Line 91. *)
Definition badge (rtype : string) : string :=
  "<span class=" +:+ dq +:+ "badge "
    +:+ default "badge-mixed" (type_class !! rtype) +:+ dq +:+ ">"
    +:+ rtype +:+ "</span>".

Definition span_open : string :=
  "<span class=" +:+ dq +:+ "handwritten-note" +:+ dq +:+ ">".

(** One round of the ingredients loop (lines 95-109): the text added to
    [ingredients_html] for the line [ing]. *)
Definition ingredient_step (ingredients_html ing : string) : string :=
  if startswith ing "---" && endswith ing "---" then
    let section_title := strip "- " ing in
    ingredients_html +:+ "<li class=" +:+ dq +:+ "ingredient-section" +:+ dq
      +:+ ">" +:+ section_title +:+ "</li>"
  else if String.eqb ing "" then
    ingredients_html
  else if startswith ing "Then add:" || startswith ing "Then add" then
    ingredients_html +:+ "<li class=" +:+ dq +:+ "ingredient-instruction"
      +:+ dq +:+ ">" +:+ escape_html ing +:+ "</li>"
  else
    let ing_html := escape_html ing in
    let ing_html :=
      replace "[Handwritten:" (span_open +:+ "[Handwritten:") ing_html in
    let ing_html :=
      replace "[Handwritten note:" (span_open +:+ "[Note:") ing_html in
    let ing_html :=
      if contains span_open ing_html
      then replace_n "]" "]</span>" (count "<span" ing_html) ing_html
      else ing_html in
    ingredients_html +:+ "<li>" +:+ ing_html +:+ "</li>".

(** Lines 94-109. *)
Definition build_ingredients_html (ingredients : list string) : string :=
  fold_left ingredient_step ingredients "".

(** One round of the inner loop of lines 123-124. *)
Definition method_item_step (method_html item : string) : string :=
  method_html +:+ "<li>" +:+ escape_html (lstrip "- " item) +:+ "</li>".

(** One round of the paragraph loop (lines 115-131). *)
Definition method_step (method_html para : string) : string :=
  let para := strip_ws para in
  if startswith para "---" && endswith para "---" then
    let section_title := strip "- " para in
    method_html +:+ "<h4 class=" +:+ dq +:+ "method-subsection" +:+ dq
      +:+ ">" +:+ escape_html section_title +:+ "</h4>"
  else if startswith para "- " then
    let items := split nl para in
    let method_html := method_html +:+ "<ul class='method-list'>" in
    let method_html := fold_left method_item_step items method_html in
    method_html +:+ "</ul>"
  else if truthy para then
    let para_html := escape_html para in
    let para_html :=
      replace "[Handwritten:" (span_open +:+ "[Handwritten:") para_html in
    let para_html :=
      if contains span_open para_html
      then replace_n "]" "]</span>" (count "<span" para_html) para_html
      else para_html in
    method_html +:+ "<p>" +:+ para_html +:+ "</p>"
  else method_html.

(** Lines 111-131. *)
Definition build_method_html (method : string) : string :=
  if truthy method
  then fold_left method_step (split (nl +:+ nl) method) ""
  else "".

(** Lines 133-136. *)
Definition build_notes_html (notes : string) : string :=
  if truthy notes
  then "<div class=" +:+ dq +:+ "recipe-notes" +:+ dq
         +:+ "><strong>Notes:</strong> " +:+ escape_html notes +:+ "</div>"
  else "".

(** The text of lines 143-147 for one image whose data URI is [data]. *)
Definition photo_html (data title : string) : string :=
  "
            <div class=" +:+ dq +:+ "original-photo" +:+ dq +:+ " onclick=" +:+ dq +:+ "openLightbox(this.querySelector('img').src)" +:+ dq +:+ ">
                <img src=" +:+ dq +:+ data +:+ dq +:+ " alt=" +:+ dq +:+ "Original: " +:+ escape_html title +:+ dq +:+ " loading=" +:+ dq +:+ "lazy" +:+ dq +:+ ">
                <span class=" +:+ dq +:+ "photo-caption" +:+ dq +:+ ">Tap to enlarge</span>
            </div>".

(** One round of the gallery loop (lines 140-147). [on_disk name] tells
    whether [IMAGES_DIR / name] exists; [image_data] is the dictionary of
    the encoded images. *)
Definition image_step (on_disk : string → bool)
    (image_data : gmap string string) (title : string)
    (images_html img_name : string) : string :=
  match image_data !! img_name with
  | Some data =>
    if on_disk img_name
    then images_html +:+ photo_html data title
    else images_html
  | None => images_html
  end.

(** [build_recipe_card] (lines 79-176). *)
Definition build_recipe_card (on_disk : string → bool)
    (image_data : gmap string string) (r : recipe) : string :=
  let recipe_id := recipe_id r in
  let title := recipe_title r in
  let rtype := recipe_type r in
  let badge := badge rtype in
  let ingredients_html := build_ingredients_html (recipe_ingredients r) in
  let method_html := build_method_html (recipe_method r) in
  let notes_html := build_notes_html (recipe_notes r) in
  let images_html :=
    fold_left (image_step on_disk image_data title)
      (recipe_source_images r) "" in
  let method_section :=
    if truthy method_html
    then "<div class='method-section'><h3>Method</h3>" +:+ method_html
           +:+ "</div>"
    else "" in
  let photos :=
    if truthy images_html then images_html
    else "<p class=" +:+ dq +:+ "no-photo" +:+ dq
           +:+ ">No original photo available</p>" in
  "
    <article class=" +:+ dq +:+ "recipe-card" +:+ dq +:+ " data-title=" +:+ dq +:+ escape_html (lower title) +:+ dq +:+ " data-type=" +:+ dq +:+ rtype +:+ dq +:+ " id=" +:+ dq +:+ recipe_id +:+ dq +:+ ">
        <div class=" +:+ dq +:+ "card-header" +:+ dq +:+ ">
            <h2>" +:+ escape_html title +:+ "</h2>
            " +:+ badge +:+ "
        </div>

        <div class=" +:+ dq +:+ "card-content" +:+ dq +:+ ">
            <div class=" +:+ dq +:+ "card-text" +:+ dq +:+ ">
                <div class=" +:+ dq +:+ "ingredients-section" +:+ dq +:+ ">
                    <h3>Ingredients</h3>
                    <ul class=" +:+ dq +:+ "ingredients-list" +:+ dq +:+ ">
                        " +:+ ingredients_html +:+ "
                    </ul>
                </div>

                " +:+ method_section +:+ "

                " +:+ notes_html +:+ "
            </div>

            <div class=" +:+ dq +:+ "card-photos" +:+ dq +:+ ">
                " +:+ photos +:+ "
            </div>
        </div>
    </article>".

End Html.

(* ===================================================================== *)
(** * ocr_pipeline.py *)
(* ===================================================================== *)

Module Ocr.
Import Py.

(** ** Exceptions and the state of the run *)

(** The result of a Python call: a value, or a raised [Exception] carried
    by its text [str(e)]. *)
Inductive outcome (A : Type) : Type :=
| Ok (a : A)
| Raise (e : string).
Arguments Ok {A} a.
Arguments Raise {A} e.

(** One recipe of the audit (lines 238-241 and 254): [notes] is the only
    optional key. *)
Record recipe := {
  id : string;
  title : string;
  type : string;
  best_images : list string;
  notes : option string
}.

(** The record built at lines 247-255 and completed at lines 274, 287
    and 300. *)
Record result := {
  res_id : string;
  res_title : string;
  res_type : string;
  source_images : list string;
  tesseract_raw : string;
  gpt4o_raw : string;
  res_notes : string
}.

(** A decoded image: only its shape is modelled, [gray.shape] being
    [(rows, cols)]. *)
Record image := { rows : Z; cols : Z }.

(** What a file holds. [Json rs] is the text [json.dump] writes for the
    list [rs] (indent 2, non-ASCII kept), represented by the list itself. *)
Inductive content :=
| Picture (img : image)
| Unreadable
| Text (s : string)
| Audit (recipes : list recipe)
| Json (rs : list result).

(** The lines written on the standard output, one constructor per [print]
    call of the source. *)
Inductive msg :=
| Rule
| Heading
| FoundRecipes (n : nat)
| Processing (i n : nat) (title : string)
| TypeIs (rtype : string)
| ImagesAre (best_images : list string)
| WarnNotFound (img_name : string)
| WarnCouldNotLoad (name : string)
| TesseractChars (n : nat)
| Gpt4oChars (n : nat)
| Gpt4oFailed (e : string)
| Complete
| SavedTo (path : string)
| TesseractOutputs (path : string)
| Gpt4oOutputs (path : string).

(** The text of the two warnings and of the error line (lines 81, 262
    and 299). *)
Definition render_warning (m : msg) : option string :=
  match m with
  | WarnNotFound img_name => Some ("  [WARN] Image not found: " +:+ img_name)
  | WarnCouldNotLoad name => Some ("  [WARN] Could not load: " +:+ name)
  | Gpt4oFailed e => Some ("  [ERROR] GPT-4o failed: " +:+ e)
  | _ => None
  end.

(** The files (directories are not modelled), the standard output and
    the seconds spent in [time.sleep]. *)
Record state := {
  fs : gmap string content;
  out : list msg;
  slept : nat
}.

(** A computation that reads and changes the state and may raise; the
    changes made before an exception is raised remain. *)
Definition M (A : Type) : Type := state → outcome A * state.

#[export] Instance M_ret : MRet M := λ A a st, (Ok a, st).
#[export] Instance M_bind : MBind M := λ A B f m st,
  match m st with
  | (Ok a, st') => f a st'
  | (Raise e, st') => (Raise e, st')
  end.

(** [try: body  except Exception as e: handler(e)] *)
Definition try_except {A} (body : M A) (handler : string → M A) : M A :=
  λ st,
    match body st with
    | (Ok a, st') => (Ok a, st')
    | (Raise e, st') => handler e st'
    end.

Definition lift {A} (o : outcome A) : M A := λ st, (o, st).

Definition print (m : msg) : M unit := λ st,
  (Ok tt, {| fs := fs st; out := out st ++ [m]; slept := slept st |}).

(** [path.exists()] *)
Definition path_exists (p : string) : M bool := λ st,
  (Ok (bool_decide (is_Some (fs st !! p))), st).

(** [with open(p, "w") as f: f.write(text)], [cv2.imwrite] and
    [json.dump] to an open file: the file is created or replaced. *)
Definition write_file (p : string) (c : content) : M unit := λ st,
  (Ok tt, {| fs := <[p := c]> (fs st); out := out st; slept := slept st |}).

(** [time.sleep(n)] *)
Definition sleep (n : nat) : M unit := λ st,
  (Ok tt, {| fs := fs st; out := out st; slept := (slept st + n)%nat |}).

(** ** Configuration (lines 43-52), relative to [BASE_DIR] *)

(** [dir / name] for a relative file name. *)
Definition pjoin (dir name : string) : string := dir +:+ "/" +:+ name.

Definition IMAGES_DIR : string := "Images".
Definition OUTPUT_DIR : string := "ocr_output".
Definition PREPROCESSED_DIR : string := pjoin OUTPUT_DIR "preprocessed".
Definition TESSERACT_DIR : string := pjoin OUTPUT_DIR "tesseract".
Definition GPT4O_DIR : string := pjoin OUTPUT_DIR "gpt4o".
Definition AUDIT_FILE : string := "image_audit.json".
Definition GPT4O_MODEL : string := "gpt-4o".

(** ** Step 1: [load_audit] (lines 57-60) *)

(** [open] raises when the file is missing and [json.load] when it does
    not hold a JSON document; a document that is not an audit makes the
    subscript of line 228 raise. *)
Definition load_audit : M (list recipe) := λ st,
  match fs st !! AUDIT_FILE with
  | Some (Audit recipes) => (Ok recipes, st)
  | Some _ => (Raise "JSONDecodeError", st)
  | None => (Raise "FileNotFoundError", st)
  end.

(** ** Step 2: [preprocess_for_tesseract] (lines 66-109) *)

(** A Python [int] below [2^53] as a [float]. *)
Definition float_of_Z (n : Z) : float := PrimFloat.of_uint63 (Uint63.of_Z n).

(** [m / 2^k] rounded to the nearest integer, ties to even, for
    [0 < k < 63] and [m < 2^62]. *)
Definition round_half_even (m k : int) : int :=
  let q := Uint63.lsr m k in
  let r := Uint63.sub m (Uint63.lsl q k) in
  let half := Uint63.lsl 1 (Uint63.sub k 1) in
  if Uint63.ltb r half then q
  else if Uint63.ltb half r then Uint63.add q 1
  else if Uint63.is_even q then q else Uint63.add q 1.

(** The nearest integer of a float [2^-9 <= x < 2^31]. [frshiftexp]
    gives [x = f * 2^(se - 2101)] with [1/2 <= f < 1] and
    [normfr_mantissa] gives [f = m / 2^53], so [x = m / 2^k] for
    [k = 53 + 2101 - se]. *)
Definition cvRound_pos (x : float) : int :=
  let '(f, se) := PrimFloat.frshiftexp x in
  let m := PrimFloat.normfr_mantissa f in
  let k := Uint63.sub 2154 se in
  round_half_even m k.

(** [cvRound]: the nearest integer, ties to even; what OpenCV's
    [saturate_cast<int>] applies to a [double]. Values outside the range
    of [int] (and NaN) give [INT_MIN]. *)
Definition cvRound (x : float) : Z :=
  let a := PrimFloat.abs x in
  if PrimFloat.ltb a 0x1p-9 then 0
  else if PrimFloat.ltb a 0x1p31 then
    let n := Uint63.to_Z (cvRound_pos a) in
    if PrimFloat.ltb x 0 then - n else n
  else -2147483648.

(** [cv2.cvtColor(img, cv2.COLOR_BGR2GRAY)] keeps the shape. *)
Definition cvtColor_gray (img : image) : image := img.

(** [cv2.resize(gray, None, fx=scale, fy=scale, ...)]: with no [dsize]
    the size of the result is
    [(cvRound(fx * cols), cvRound(fy * rows))]. *)
Definition resize (gray : image) (fx fy : float) : image :=
  {| rows := cvRound (PrimFloat.mul (float_of_Z (rows gray)) fy);
     cols := cvRound (PrimFloat.mul (float_of_Z (cols gray)) fx) |}.

(** Lines 88-91. *)
Definition upscale (gray : image) : image :=
  let h := rows gray in
  let w := cols gray in
  if Z.max h w <? 1500 then
    let scale := PrimFloat.div (float_of_Z 1500) (float_of_Z (Z.max h w)) in
    resize gray scale scale
  else gray.

(** CLAHE, the adaptive threshold and the denoising (lines 94-103) each
    return an image of the shape of their input. *)
Definition clahe_apply (gray : image) : image := gray.
Definition adaptiveThreshold (gray : image) : image := gray.
Definition fastNlMeansDenoising (thresh : image) : image := thresh.

(** The image lines 85-103 compute from a decoded one. *)
Definition preprocess_image (img : image) : image :=
  let gray := cvtColor_gray img in
  let gray := upscale gray in
  let gray := clahe_apply gray in
  let thresh := adaptiveThreshold gray in
  fastNlMeansDenoising thresh.

(** [cv2.imread]: [None] when the file is missing or is not an image. *)
Definition imread (p : string) : M (option image) := λ st,
  (Ok match fs st !! p with Some (Picture img) => Some img | _ => None end,
   st).

(** [image_path.name] of [IMAGES_DIR / img_name] is passed as [name]. *)
Definition preprocess_for_tesseract (image_path name output_path : string)
    : M (option string) :=
  img ← imread image_path;
  match img with
  | None => print (WarnCouldNotLoad name);; mret None
  | Some img =>
    let denoised := preprocess_image img in
    write_file output_path (Picture denoised);;
    mret (Some output_path)
  end.

(** ** The outside world *)

(** One element of the message content built at lines 183-199; the data
    URL of an image is represented by its media type and the path of the
    file whose bytes it encodes. *)
Inductive part :=
| TextPart (text : string)
| ImagePart (media_type path : string).

(** The request of lines 202-207. *)
Record request := {
  req_model : string;
  req_content : list part;
  req_max_tokens : Z;
  req_temperature : float
}.

(** The two external services: [image_to_string p] is what [Image.open]
    followed by [pytesseract.image_to_string] yields for the file at [p],
    [chat_create rq] the [choices[0].message.content] of the reply to
    [rq]; either may raise. *)
Record env := {
  image_to_string : string → outcome string;
  chat_create : request → outcome string
}.

(** ** Step 3a: [run_tesseract] (lines 115-123) *)
Definition run_tesseract (w : env) (image_path : string) : M string :=
  text ← lift (image_to_string w image_path);
  mret (strip_ws text).

(** ** Step 3b: [run_gpt4o_vision] (lines 135-209) *)

(** [encode_image_base64] (lines 129-132) opens the file, which raises
    when it is missing; the encoded bytes are represented by the path. *)
Definition encode_image_base64 (image_path : string) : M string := λ st,
  match fs st !! image_path with
  | Some _ => (Ok image_path, st)
  | None => (Raise "FileNotFoundError", st)
  end.

(** The dictionary of lines 151-155. *)
Definition type_guidance : gmap string string :=
  <["typed" := "This is a typewritten recipe, possibly with handwritten annotations in pen/pencil alongside the typed text."]>
    (<["handwritten" := "This is a fully handwritten recipe in pen/pencil."]>
      (<["mixed" := "This recipe has both typed/printed text and handwritten annotations overlaid on top."]> ∅)).

(** [d[k]]: raises [KeyError] when the key is absent. *)
Definition getitem (d : gmap string string) (k : string) : outcome string :=
  match d !! k with
  | Some v => Ok v
  | None => Raise ("KeyError: '" +:+ k +:+ "'")
  end.

(** The expression of line 163: the default is evaluated first, then
    [dict.get] never raises. *)
Definition guidance_for (recipe_type : string) : outcome string :=
  match getitem type_guidance "handwritten" with
  | Ok fallback => Ok (default fallback (type_guidance !! recipe_type))
  | Raise e => Raise e
  end.

(** Lines 157-159. *)
Definition page_note (image_paths : list string) : string :=
  if (1 <? length image_paths)%nat
  then nl +:+ nl +:+ "This recipe spans " +:+ pretty (length image_paths)
         +:+ " pages/images. Please transcribe all pages in order as one continuous recipe."
  else "".

(** The f-string of lines 161-180 around its two fields. *)
Definition prompt_text (guidance page_note : string) : string :=
  "You are a careful transcription assistant helping to preserve a grandmother's handwritten curry recipe collection.

" +:+ guidance +:+ "
" +:+ page_note +:+ "

Please transcribe the recipe EXACTLY as written, preserving:
- The recipe title
- All ingredients with their quantities and units
- All method/cooking instructions
- Any handwritten annotations or notes (mark these clearly as [Handwritten note: ...])
- Any corrections or alternative quantities written alongside

Important details:
- " +:+ dq +:+ "Zeera" +:+ dq +:+ " = cumin, " +:+ dq +:+ "Haldi" +:+ dq +:+ " = turmeric, " +:+ dq +:+ "Dhania" +:+ dq +:+ " = coriander — keep the original terms
- Preserve fractions (½, ¼, etc.) as written
- If text is unclear, use [unclear: best guess]
- Maintain the original structure (title, ingredients list, method)
- Do NOT add any interpretation or modernisation — transcribe faithfully

Output the transcription as plain text, preserving the recipe's natural structure.".

Definition build_prompt (image_paths : list string) (recipe_type : string)
    : outcome string :=
  match guidance_for recipe_type with
  | Ok guidance => Ok (prompt_text guidance (page_note image_paths))
  | Raise e => Raise e
  end.

(** [PurePath.name]: the text after the last slash. *)
Fixpoint path_name (p : string) : string :=
  match p with
  | EmptyString => EmptyString
  | String c p' =>
    if contains "/" p' then path_name p'
    else if Ascii.eqb c "/" then p' else p
  end.

(** The text before and after the last dot of [s], if it has one. *)
Fixpoint rsplit_dot (s : string) : option (string * string) :=
  match s with
  | EmptyString => None
  | String c s' =>
    match rsplit_dot s' with
    | Some (b, a) => Some (String c b, a)
    | None => if Ascii.eqb c "." then Some (EmptyString, s') else None
    end
  end.

(** [PurePath.suffix]: the last dot of the name and what follows it,
    unless the dot is the first or the last character. *)
Definition path_suffix (p : string) : string :=
  match rsplit_dot (path_name p) with
  | Some (b, a) => if truthy b && truthy a then "." +:+ a else ""
  | None => ""
  end.

(** Line 188. *)
Definition media_type_of (img_path : string) : string :=
  let suffix := lower (path_suffix img_path) in
  if String.eqb suffix ".jpg" || String.eqb suffix ".jpeg"
  then "image/jpeg" else "image/png".

(** The loop of lines 185-199 from index [i] on; [n] is
    [len(image_paths)]. *)
Fixpoint image_parts (n i : nat) (image_paths : list string)
    (content : list part) : M (list part) :=
  match image_paths with
  | [] => mret content
  | img_path :: rest =>
    b64 ← encode_image_base64 img_path;
    let media_type := media_type_of img_path in
    let content :=
      if (1 <? n)%nat
      then content ++ [TextPart (nl +:+ "--- Page " +:+ pretty (i + 1)%nat
                                   +:+ " of " +:+ pretty n +:+ " ---")]
      else content in
    image_parts n (i + 1)%nat rest (content ++ [ImagePart media_type b64])
  end.

Definition run_gpt4o_vision (w : env) (image_paths : list string)
    (recipe_type : string) : M string :=
  prompt ← lift (build_prompt image_paths recipe_type);
  content ← image_parts (length image_paths) 0 image_paths [TextPart prompt];
  response ← lift (chat_create w
    {| req_model := GPT4O_MODEL;
       req_content := content;
       req_max_tokens := 4096;
       req_temperature := 0x1.999999999999ap-4%float |});
  mret (strip_ws response).

(** ** Step 4: [run_pipeline] (lines 215-316) *)

Definition PAGE_BREAK : string :=
  nl +:+ nl +:+ "--- PAGE BREAK ---" +:+ nl +:+ nl.

(** The loop of lines 259-272 over the images still to visit. *)
Fixpoint tesseract_loop (w : env) (recipe_id : string)
    (images : list string) (tesseract_texts : list string)
    : M (list string) :=
  match images with
  | [] => mret tesseract_texts
  | img_name :: rest =>
    let img_path := pjoin IMAGES_DIR img_name in
    found ← path_exists img_path;
    if negb found then
      print (WarnNotFound img_name);;
      tesseract_loop w recipe_id rest tesseract_texts
    else
      let preproc_path :=
        pjoin PREPROCESSED_DIR (recipe_id +:+ "_" +:+ img_name) in
      preprocess_for_tesseract img_path img_name preproc_path;;
      written ← path_exists preproc_path;
      if (written : bool) then
        tess_text ← run_tesseract w preproc_path;
        print (TesseractChars (String.length tess_text));;
        tesseract_loop w recipe_id rest (tesseract_texts ++ [tess_text])
      else tesseract_loop w recipe_id rest tesseract_texts
  end.

(** The comprehension of line 282. *)
Fixpoint existing_paths (images : list string) : M (list string) :=
  match images with
  | [] => mret []
  | name :: rest =>
    found ← path_exists (pjoin IMAGES_DIR name);
    paths ← existing_paths rest;
    mret (if (found : bool) then pjoin IMAGES_DIR name :: paths else paths)
  end.

(** The vision step of lines 284-300; its value is the final
    [result["gpt4o_raw"]]. *)
Definition vision_step (w : env) (recipe_id rtype : string)
    (image_paths : list string) : M string :=
  match image_paths with
  | [] => mret ""
  | _ =>
    try_except
      (gpt4o_text ← run_gpt4o_vision w image_paths rtype;
       print (Gpt4oChars (String.length gpt4o_text));;
       write_file (pjoin GPT4O_DIR (recipe_id +:+ ".txt")) (Text gpt4o_text);;
       sleep 1;;
       mret gpt4o_text)
      (λ e,
       print (Gpt4oFailed e);;
       mret ("ERROR: " +:+ e))
  end.

(** The body of the loop of line 237 up to line 300: the record that
    line 302 appends. [i] is the index of the recipe, [n] the number of
    recipes. *)
Definition process_recipe (w : env) (i n : nat) (r : recipe) : M result :=
  let recipe_id := id r in
  let title := title r in
  let rtype := type r in
  let best_images := best_images r in
  print (Processing (i + 1) n title);;
  print (TypeIs rtype);;
  print (ImagesAre best_images);;
  tesseract_texts ← tesseract_loop w recipe_id best_images [];
  let tesseract_raw := join PAGE_BREAK tesseract_texts in
  write_file (pjoin TESSERACT_DIR (recipe_id +:+ ".txt")) (Text tesseract_raw);;
  image_paths ← existing_paths best_images;
  gpt4o_raw ← vision_step w recipe_id rtype image_paths;
  mret {| res_id := recipe_id;
          res_title := title;
          res_type := rtype;
          source_images := best_images;
          tesseract_raw := tesseract_raw;
          gpt4o_raw := gpt4o_raw;
          res_notes := default "" (notes r) |}.

(** The loop of lines 237-302 from index [i] on. *)
Fixpoint process_all (w : env) (i n : nat) (recipes : list recipe)
    (all_results : list result) : M (list result) :=
  match recipes with
  | [] => mret all_results
  | r :: rest =>
    rec ← process_recipe w i n r;
    process_all w (i + 1)%nat n rest (all_results ++ [rec])
  end.

(** Line 305. *)
Definition RESULTS_FILE : string := pjoin OUTPUT_DIR "ocr_results_combined.json".

(** [run_pipeline] (lines 215-316). The creation of the output directories
    (lines 223-224) and of the client (line 232) change nothing that is
    modelled. *)
Definition run_pipeline (w : env) : M (list result) :=
  print Rule;; print Heading;; print Rule;;
  recipes ← load_audit;
  print (FoundRecipes (length recipes));;
  all_results ← process_all w 0 (length recipes) recipes [];
  write_file RESULTS_FILE (Json all_results);;
  print Rule;; print Complete;; print (SavedTo RESULTS_FILE);;
  print (TesseractOutputs TESSERACT_DIR);;
  print (Gpt4oOutputs GPT4O_DIR);;
  print Rule;;
  mret all_results.

End Ocr.

(* ===================================================================== *)
(** * Notions used to state the properties *)
(* ===================================================================== *)

Module HtmlSpec.
Import Py Html.

(** [s] with every character [c] replaced by the text [f c]. *)
Fixpoint cmap (f : ascii → string) (s : string) : string :=
  match s with
  | EmptyString => EmptyString
  | String c s' => f c +:+ cmap f s'
  end.

(** The entity of one character. *)
Definition esc_char (c : ascii) : string :=
  if Ascii.eqb c "&" then "&amp;"
  else if Ascii.eqb c "<" then "&lt;"
  else if Ascii.eqb c ">" then "&gt;"
  else if Ascii.eqb c (ascii_of_nat 34) then "&quot;"
  else if Ascii.eqb c (ascii_of_nat 10) then "<br>"
  else String c EmptyString.

(** The entity of the characters of the set [done], the others kept. *)
Definition esc_only (done : string) (c : ascii) : string :=
  if mem_char c done then esc_char c else String c EmptyString.

(** The five substitutions of [escape_html] undone, last one first. It is
    not part of the source: it is the reading of an escaped text a
    browser makes, and serves to state the round trip. *)
Definition unescape_html (text : string) : string :=
  replace "&amp;" "&"
    (replace "&lt;" "<"
      (replace "&gt;" ">"
        (replace "&quot;" dq
          (replace "<br>" nl text)))).

(** The five characters [escape_html] rewrites. *)
Definition special : string := "&<>" +:+ dq +:+ nl.

(** The texts made of characters that are not [&], [<], [>] or the double
    quote, of the four entities and of [<br>] tags. *)
Inductive escaped : string → Prop :=
| escaped_nil : escaped ""
| escaped_plain c s :
    mem_char c ("&<>" +:+ dq) = false → escaped s → escaped (String c s)
| escaped_entity e s :
    e ∈ ["&amp;"; "&lt;"; "&gt;"; "&quot;"; "<br>"] →
    escaped s → escaped (e +:+ s).
End HtmlSpec.

Module CardExample.
Import Html.

(** A recipe with one ingredient line, a subsection header. *)
Definition salt_and_pepper : Html.recipe :=
  {| recipe_id := "r"; recipe_title := "T"; recipe_type := "typed";
     recipe_ingredients := ["---Salt & <b>Pepper</b>---"];
     recipe_method := ""; recipe_notes := "";
     recipe_source_images := [] |}.
End CardExample.

Module PromptSpec.
(** The guidance of the key [handwritten] in [type_guidance]. *)
Definition handwritten_text : string :=
  "This is a fully handwritten recipe in pen/pencil.".
End PromptSpec.

Module ResizeCheck.
Import Ocr.

(** The three range tests of [cvRound] on [x] pass and the rounded value
    is at most 1500, and is 1500 when [exact] is set. *)
Definition rounds_to_1500 (exact : bool) (x : float) : bool :=
  let a := PrimFloat.abs x in
  negb (PrimFloat.ltb a 0x1p-9) && PrimFloat.ltb a 0x1p31
  && negb (PrimFloat.ltb x 0)
  && (if exact then Uint63.eqb (cvRound_pos a) 1500
      else Uint63.leb (cvRound_pos a) 1500).

(** A size [d] of an image whose larger size is [m], scaled as lines
    90-91 do; both sizes come with their value as a float. *)
Definition check_pair (d m : Z * float) : bool :=
  if d.1 <=? m.1 then
    rounds_to_1500 (d.1 =? m.1)
      (PrimFloat.mul d.2 (PrimFloat.div (float_of_Z 1500) m.2))
  else true.

(** The sizes below the threshold. *)
Definition sizes : list (Z * float) :=
  List.map (λ k, let z := Z.of_nat k in (z, float_of_Z z)) (seq 1 1499).

(** [check_pair] on [m], the larger size, and every size [d]. *)
Definition check_row (m : Z * float) : bool :=
  forallb (λ d, check_pair d m) sizes.
End ResizeCheck.

Module OcrSpec.
Import Py Ocr.

(** Whether the image [name] of a recipe exists in [IMAGES_DIR]. *)
Definition on_disk (st : state) (name : string) : bool :=
  bool_decide (is_Some (fs st !! pjoin IMAGES_DIR name)).

(** The images of a list that exist, and those that do not. *)
Definition existing (st : state) (images : list string) : list string :=
  List.filter (on_disk st) images.

(** Whether [cv2.imread] decodes the image [name]. *)
Definition decodes (st : state) (name : string) : Prop :=
  ∃ img, fs st !! pjoin IMAGES_DIR name = Some (Picture img).

(** The paths line 266, 277 and 291 build. *)
Definition preproc_path (recipe_id img_name : string) : string :=
  pjoin PREPROCESSED_DIR (recipe_id +:+ "_" +:+ img_name).


(** The recognizer raises on no file. *)
Definition tesseract_total (w : env) : Prop :=
  ∀ p, ∃ text, image_to_string w p = Ok text.

(** The recognizer does not raise on the preprocessed file of an image
    of the list that exists. *)
Definition recognizes (w : env) (st : state) (recipe_id : string)
    (images : list string) : Prop :=
  ∀ name, In name images → on_disk st name = true →
    ∃ text, image_to_string w (preproc_path recipe_id name) = Ok text.

(** The recognizer does not raise on the existing images of any recipe
    of the list. *)
Definition batch_recognizes (w : env) (st : state) (recipes : list recipe)
    : Prop :=
  ∀ r, In r recipes → recognizes w st (id r) (best_images r).


(** The names the image-not-found warnings of a log carry, in order. *)
Definition not_found_warnings (log : list msg) : list string :=
  omap (λ m, match m with WarnNotFound name => Some name | _ => None end)
    log.

(** The paths of the images of [r] that exist: the list of line 282. *)
Definition image_paths (st : state) (r : recipe) : list string :=
  List.map (pjoin IMAGES_DIR) (existing st (best_images r)).



(** The files the preprocessing step writes. *)
Definition is_preproc (p : string) : Prop := ∃ x, p = pjoin PREPROCESSED_DIR x.

(** What the recognition loop may change: preprocessed files and the
    log. *)
Definition frame (st st' : state) : Prop :=
  (∀ p, ¬ is_preproc p → fs st' !! p = fs st !! p) ∧ slept st' = slept st.



(** The state after the three lines of the banner. *)
Definition after_banner (st : state) : state :=
  {| fs := fs st; out := ((out st ++ [Rule]) ++ [Heading]) ++ [Rule];
     slept := slept st |}.
End OcrSpec.

Module Examples.
Import Py Ocr OcrSpec.

(** A recognizer that reads the text [page] on every file and a vision
    service that always fails with [quota exceeded]. *)
Definition failing_vision : env :=
  {| image_to_string := λ _, Ok "page";
     chat_create := λ _, Raise "quota exceeded" |}.

(** A recognizer that raises on every file and a vision service that
    answers. *)
Definition failing_tesseract : env :=
  {| image_to_string := λ _, Raise "TesseractError";
     chat_create := λ _, Ok "transcript" |}.

Definition ball_curry : recipe :=
  {| id := "ball_curry"; title := "Ball Curry"; type := "typed";
     best_images := ["ball_curry_1.jpg"; "ball_curry_2.jpg"];
     notes := None |}.

Definition dosais : recipe :=
  {| id := "dosais"; title := "Dosais"; type := "handwritten";
     best_images := ["dosais.jpg"]; notes := Some "faded" |}.

Definition files (l : list (string * content)) : state :=
  {| fs := list_to_map l; out := []; slept := 0 |}.

Definition scan : content := Picture {| rows := 1000; cols := 700 |}.

(** Only the first page of [ball_curry] is on the disk. *)
Definition one_page_missing : state :=
  files [("image_audit.json", Audit [ball_curry; dosais]);
         ("Images/ball_curry_1.jpg", scan);
         ("Images/dosais.jpg", scan)].

End Examples.

(* ===================================================================== *)
(** * The rest of the two programs, and the notions of the further
      properties *)
(* ===================================================================== *)

Module RunSpec.
Import Py Ocr OcrSpec.


(** The files the rounds of the loop write: the preprocessed images and
    the files of the two text directories. *)
Definition per_recipe_output (p : string) : Prop :=
  is_preproc p ∨ (∃ x, p = pjoin TESSERACT_DIR x)
  ∨ (∃ x, p = pjoin GPT4O_DIR x).

(** Every file that is not an output of a round is the same in [st'] as
    in [st]. *)
Definition others_untouched (st st' : state) : Prop :=
  ∀ p, ¬ per_recipe_output p → fs st' !! p = fs st !! p.


End RunSpec.

Module RunExamples.
Import Py Ocr OcrSpec.


End RunExamples.

Module VisionSpec.
Import Py Ocr.


End VisionSpec.

Module RatioCheck.
Import Ocr.

(** The three range tests of [cvRound] on [x] pass, and the rounded value
    [r] is the integer nearest to [1500 * d / m]:
    [2 * |r * m - 1500 * d| <= m]. *)
Definition nearest (d m : int) (x : float) : bool :=
  let a := PrimFloat.abs x in
  negb (PrimFloat.ltb a 0x1p-9) && PrimFloat.ltb a 0x1p31
  && negb (PrimFloat.ltb x 0)
  && (let r := cvRound_pos a in
      Uint63.leb r 1500
      && (let lhs := Uint63.mul r m in
          let rhs := Uint63.mul 1500 d in
          let diff :=
            if Uint63.leb lhs rhs then Uint63.sub rhs lhs
            else Uint63.sub lhs rhs in
          Uint63.leb (Uint63.mul 2 diff) m)).

(** A size [d] of an image whose larger size is [m], scaled as lines
    90-91 do. *)
Definition check_ratio (m d : int) : bool :=
  if Uint63.leb d m then
    nearest d m
      (PrimFloat.mul (PrimFloat.of_uint63 d)
         (PrimFloat.div (PrimFloat.of_uint63 1500) (PrimFloat.of_uint63 m)))
  else true.

(** The sizes below the threshold. *)
Definition int_sizes : list int :=
  List.map (λ k, Uint63.of_Z (Z.of_nat k)) (seq 1 1499).

(** [check_ratio] on [m], the larger size, and every size [d]. *)
Definition check_ratio_row (m : int) : bool :=
  forallb (check_ratio m) int_sizes.
End RatioCheck.

Module HtmlBuild.
Import Py Html.

(** [RECIPE_ORDER] (lines 40-57). *)
Definition RECIPE_ORDER : list string :=
  ["green_masala_bryani"; "chicken_curry_handwritten"; "chicken_curry_typed";
   "ball_curry"; "fish_curry"; "coconut_fish_prawn_curry"; "prawn_balchow";
   "pepper_water_typed"; "pepper_water_handwritten"; "breast_pepper_water";
   "aubergine_brinjal_fry"; "brinjal_ladies_fingers"; "mixed_frozen_veg";
   "dosais"; "johns_green_masala_curry"; "johns_3_bean_curry"].

(** The files of the images: the path of each file that exists, with the
    base64 text of its bytes. *)
Definition disk : Type := gmap string string.

(** [encode_image] (lines 60-66): [open] raises when the file is
    missing. *)
Definition encode_image (files : disk) (image_path : string)
    : Ocr.outcome string :=
  match (files : gmap string string) !! image_path with
  | Some data =>
    let suffix := lower (Ocr.path_suffix image_path) in
    let mime :=
      if String.eqb suffix ".jpg" || String.eqb suffix ".jpeg"
      then "image/jpeg" else "image/png" in
    Ocr.Ok ("data:" +:+ mime +:+ ";base64," +:+ data)
  | None => Ocr.Raise "FileNotFoundError"
  end.

(** The two diagnostics of the reordering (lines 192 and 198). *)
Inductive note :=
| NotInRecipes (rid : string)
| NotInOrder (rid : string).

(** The dictionary of line 186: a later recipe replaces an earlier one of
    the same id. *)
Definition recipe_map (recipes : list recipe) : gmap string recipe :=
  fold_left (λ m r, <[recipe_id r := r]> m) recipes ∅.

(** One round of the loop of lines 188-192. *)
Definition listed_step (m : gmap string recipe)
    (acc : list recipe * list note) (rid : string)
    : list recipe * list note :=
  match m !! rid with
  | Some r => (acc.1 ++ [r], acc.2)
  | None => (acc.1, acc.2 ++ [NotInRecipes rid])
  end.

(** One round of the loop of lines 195-198. *)
Definition unlisted_step (acc : list recipe * list note) (r : recipe)
    : list recipe * list note :=
  if bool_decide (recipe_id r ∈ RECIPE_ORDER) then acc
  else (acc.1 ++ [r], acc.2 ++ [NotInOrder (recipe_id r)]).

(** The reordering of lines 185-200: the recipes in display order and the
    diagnostics printed. *)
Definition order_recipes (recipes : list recipe) : list recipe * list note :=
  let recipe_map := recipe_map recipes in
  let listed := fold_left (listed_step recipe_map) RECIPE_ORDER ([], []) in
  fold_left unlisted_step recipes listed.

(** The set of lines 206-209. *)
Definition all_image_names (recipes : list recipe) : gset string :=
  fold_left
    (λ names r, fold_left (λ names img_name, {[img_name]} ∪ names)
                  (recipe_source_images r) names)
    recipes ∅.

(** [sorted(all_image_names)] *)
Definition sorted_names (names : gset string) : list string :=
  merge_sort String.le (elements names).

(** The loop of lines 211-215 over the names still to visit. *)
Fixpoint encode_all (files : disk) (names : list string)
    (image_data : gmap string string) : Ocr.outcome (gmap string string) :=
  match names with
  | [] => Ocr.Ok image_data
  | img_name :: rest =>
    let img_path := Ocr.pjoin Ocr.IMAGES_DIR img_name in
    if bool_decide (is_Some ((files : gmap string string) !! img_path)) then
      match encode_image files img_path with
      | Ocr.Ok uri => encode_all files rest (<[img_name := uri]> image_data)
      | Ocr.Raise e => Ocr.Raise e
      end
    else encode_all files rest image_data
  end.

(** Lines 203-215: the dictionary of the encoded images. *)
Definition build_image_data (files : disk) (recipes : list recipe)
    : Ocr.outcome (gmap string string) :=
  encode_all files (sorted_names (all_image_names recipes)) ∅.

(** [img_path.exists()] at line 142 of [build_recipe_card]. *)
Definition image_on_disk (files : disk) (img_name : string) : bool :=
  bool_decide
    (is_Some ((files : gmap string string) !! Ocr.pjoin Ocr.IMAGES_DIR img_name)).

(** The gallery of a card: [images_html] after the loop of lines 140-147. *)
Definition gallery (files : disk) (image_data : gmap string string)
    (r : recipe) : string :=
  fold_left (image_step (image_on_disk files) image_data (recipe_title r))
    (recipe_source_images r) "".
End HtmlBuild.

Module GallerySpec.
Import Py Html HtmlBuild.

(** The data URI [encode_image] gives for the image [img_name] of
    [IMAGES_DIR]. *)
Definition data_uri (files : disk) (img_name : string) : string :=
  match encode_image files (Ocr.pjoin Ocr.IMAGES_DIR img_name) with
  | Ocr.Ok uri => uri
  | Ocr.Raise _ => ""
  end.

(** Some recipe of the list cites the image [img_name]. *)
Definition cited (recipes : list recipe) (img_name : string) : Prop :=
  ∃ r, r ∈ recipes ∧ img_name ∈ recipe_source_images r.

(** The texts of a list put end to end. *)
Definition cat (texts : list string) : string := foldr String.append "" texts.

(** The photo blocks of the source images of [r] that exist in
    [IMAGES_DIR], in the order of [source_images]. *)
Definition photos (files : disk) (r : recipe) : list string :=
  (λ name, photo_html (data_uri files name) (recipe_title r))
    <$> List.filter (image_on_disk files) (recipe_source_images r).

(** The notice of a card without photo (line 171). *)
Definition no_photo : string :=
  "<p class=" +:+ dq +:+ "no-photo" +:+ dq
    +:+ ">No original photo available</p>".

(** A recipe that cites a scan twice and a scan that is not on disk. *)
Definition two_scans : recipe :=
  {| recipe_id := "dosais"; recipe_title := "Dosais"; recipe_type := "typed";
     recipe_ingredients := ["rice"]; recipe_method := "Soak.";
     recipe_notes := "";
     recipe_source_images := ["b.png"; "gone.jpg"; "a.jpg"; "b.png"] |}.

Definition scans_on_disk : disk :=
  {[ "Images/a.jpg" := "QQ=="; "Images/b.png" := "Qg==" ]}.
End GallerySpec.

Module PathSpec.
Import Py.

(** The media type the two programs declare for a file whose extension,
    in lower case, is [ext]. *)
Definition media_type_for (ext : string) : string :=
  if bool_decide (ext ∈ ["jpg"; "jpeg"]) then "image/jpeg" else "image/png".
End PathSpec.

Module ItemSpec.
Import Py Html HtmlSpec GallerySpec.

(** The test of line 96: the line is a subsection header. *)
Definition header_line (ing : string) : bool :=
  startswith ing "---" && endswith ing "---".

(** A line that is no header and holds no opening bracket. *)
Definition ordinary (ing : string) : bool :=
  negb (header_line ing) && negb (mem_char "[" ing).

(** The list item of an ordinary line: nothing for an empty line, the
    escaped line otherwise, marked as an instruction when it starts with
    [Then add]. *)
Definition item (ing : string) : string :=
  if String.eqb ing "" then ""
  else if startswith ing "Then add"
  then "<li class=" +:+ dq +:+ "ingredient-instruction" +:+ dq +:+ ">"
         +:+ escape_html ing +:+ "</li>"
  else "<li>" +:+ escape_html ing +:+ "</li>".

(** A line with one handwritten note: [before[Handwritten:note]after]. *)
Definition with_note (before note after : string) : string :=
  before +:+ "[Handwritten:" +:+ note +:+ "]" +:+ after.



(** No bracket in the text. *)
Definition bracket_free (s : string) : bool :=
  negb (mem_char "[" s) && negb (mem_char "]" s).
End ItemSpec.


(* ===================================================================== *)
(** * Properties *)
(* ===================================================================== *)

Import Py Html Ocr.

#[local] Arguments String.append !_ _ / : simpl nomatch.

Section EscapeHtml.
Import HtmlSpec.

Lemma cmap_ext f g s : (∀ c, f c = g c) → cmap f s = cmap g s.
Proof. intros E. induction s as [|c s IH]; simpl; [done|]. by rewrite E, IH. Qed.

Lemma cmap_id s : cmap (λ c, String c EmptyString) s = s.
Proof. induction s as [|c s IH]; simpl; [done|]. by rewrite IH. Qed.

(** One [replace] on a text built character by character: it is enough to
    know what [replace] does on the text of one character, whatever
    follows. *)
Lemma replace_cmap old new f g s :
  (∀ c r, replace_go old new None 0 (f c +:+ r)
          = g c +:+ replace_go old new None 0 r) →
  replace old new (cmap f s) = cmap g s.
Proof.
  intros H. unfold replace. induction s as [|c s IH]; simpl; [done|].
  by rewrite H, IH.
Qed.

Lemma neq_eqb (c d : ascii) : c ≠ d → Ascii.eqb c d = false.
Proof. by intros; apply Ascii.eqb_neq. Qed.

(** Case analysis of a character: one of the five, or none of them. *)
Ltac char_cases c :=
  destruct (ascii_dec c "&") as [->|?];
  [|destruct (ascii_dec c "<") as [->|?];
    [|destruct (ascii_dec c ">") as [->|?];
      [|destruct (ascii_dec c (ascii_of_nat 34)) as [->|?];
        [|destruct (ascii_dec c (ascii_of_nat 10)) as [->|?]]]]].

Lemma append_single c r : String c EmptyString +:+ r = String c r.
Proof. done. Qed.

Lemma prefix_nil r : String.prefix "" r = true.
Proof. by destruct r. Qed.

(** A character that does not start [old] is copied. *)
Lemma replace_go_miss a old new c r :
  a ≠ c →
  replace_go (String a old) new None 0 (String c r)
  = String c (replace_go (String a old) new None 0 r).
Proof.
  intros Hac. cbn [replace_go String.prefix].
  by destruct (ascii_dec a c).
Qed.

Lemma esc_char_plain c :
  c ≠ "&"%char → c ≠ "<"%char → c ≠ ">"%char →
  c ≠ ascii_of_nat 34 → c ≠ ascii_of_nat 10 →
  esc_char c = String c EmptyString.
Proof. intros. unfold esc_char. by rewrite !neq_eqb. Qed.

Lemma esc_only_plain done c :
  c ≠ "&"%char → c ≠ "<"%char → c ≠ ">"%char →
  c ≠ ascii_of_nat 34 → c ≠ ascii_of_nat 10 →
  esc_only done c = String c EmptyString.
Proof.
  intros. unfold esc_only. rewrite esc_char_plain by done.
  by destruct (mem_char c done).
Qed.

Ltac stage :=
  apply replace_cmap; intros c r; char_cases c;
  [simpl; rewrite ?prefix_nil; done ..
  |rewrite !esc_only_plain by done; rewrite !append_single;
   apply replace_go_miss; congruence].

Lemma esc_stage1 s :
  replace "&" "&amp;" (cmap (esc_only "") s) = cmap (esc_only "&") s.
Proof. stage. Qed.
Lemma esc_stage2 s :
  replace "<" "&lt;" (cmap (esc_only "&") s) = cmap (esc_only "&<") s.
Proof. stage. Qed.
Lemma esc_stage3 s :
  replace ">" "&gt;" (cmap (esc_only "&<") s) = cmap (esc_only "&<>") s.
Proof. stage. Qed.
Lemma esc_stage4 s :
  replace dq "&quot;" (cmap (esc_only "&<>") s)
  = cmap (esc_only ("&<>" +:+ dq)) s.
Proof. stage. Qed.
Lemma esc_stage5 s :
  replace nl "<br>" (cmap (esc_only ("&<>" +:+ dq)) s)
  = cmap (esc_only special) s.
Proof. stage. Qed.

Lemma unesc_stage5 s :
  replace "<br>" nl (cmap (esc_only special) s)
  = cmap (esc_only ("&<>" +:+ dq)) s.
Proof. stage. Qed.
Lemma unesc_stage4 s :
  replace "&quot;" dq (cmap (esc_only ("&<>" +:+ dq)) s)
  = cmap (esc_only "&<>") s.
Proof. stage. Qed.
Lemma unesc_stage3 s :
  replace "&gt;" ">" (cmap (esc_only "&<>") s) = cmap (esc_only "&<") s.
Proof. stage. Qed.
Lemma unesc_stage2 s :
  replace "&lt;" "<" (cmap (esc_only "&<") s) = cmap (esc_only "&") s.
Proof. stage. Qed.
Lemma unesc_stage1 s :
  replace "&amp;" "&" (cmap (esc_only "&") s) = cmap (esc_only "") s.
Proof. stage. Qed.

Lemma esc_only_special c : esc_only special c = esc_char c.
Proof. char_cases c; [done..|]. by rewrite esc_only_plain, esc_char_plain. Qed.

Lemma escape_html_cmap s : escape_html s = cmap esc_char s.
Proof.
  unfold escape_html.
  rewrite <- (cmap_id s) at 1.
  change (λ c, String c EmptyString) with (esc_only "").
  rewrite esc_stage1, esc_stage2, esc_stage3, esc_stage4, esc_stage5.
  apply cmap_ext, esc_only_special.
Qed.

Lemma unescape_escape s : unescape_html (escape_html s) = s.
Proof.
  rewrite escape_html_cmap.
  rewrite (cmap_ext _ _ s (λ c, eq_sym (esc_only_special c))).
  unfold unescape_html.
  rewrite unesc_stage5, unesc_stage4, unesc_stage3, unesc_stage2, unesc_stage1.
  apply cmap_id.
Qed.

Lemma escaped_cmap s : escaped (cmap esc_char s).
Proof.
  induction s as [|c s IH]; simpl; [constructor|].
  char_cases c;
    try (apply escaped_entity; [apply list_elem_of_In; simpl; tauto|done]).
  rewrite esc_char_plain by done. simpl.
  apply escaped_plain; [|done]. simpl. by rewrite !neq_eqb by done.
Qed.

(** C9. [escape_html] rewrites the ampersand first, then [<], [>], the
    double quote and the line feed, so that no later substitution touches
    the text an earlier one produced: the result is the input with each
    character replaced by its own entity, once. Hence unescaping recovers
    the original text, [escape_html] is injective, and its result holds
    no [&], [<], [>] or double quote outside the four entities and the
    [<br>] tags. *)
Theorem escape_html_ordered_injective_safe :
  (∀ s, escape_html s = cmap esc_char s) ∧
  (∀ s, unescape_html (escape_html s) = s) ∧
  (∀ s t, escape_html s = escape_html t → s = t) ∧
  (∀ s, escaped (escape_html s)).
Proof.
  split; [exact escape_html_cmap|]. split; [exact unescape_escape|]. split.
  - intros s t E. by rewrite <- (unescape_escape s), E, unescape_escape.
  - intros s. rewrite escape_html_cmap. apply escaped_cmap.
Qed.

Lemma escape_html_ordered_injective_safe_witness :
  "Fish & <Prawn> Curry" = "Fish & <Prawn> Curry".
Proof.
  apply (proj1 (proj2 (proj2 escape_html_ordered_injective_safe))).
  reflexivity.
Defined.

(** A title with the five characters: its escaped text, and the round
    trip. *)
Example escape_html_title :
  let title := "Mum's " +:+ dq +:+ "Fish & <Prawn>" +:+ dq +:+ nl +:+ "Curry" in
  escape_html title = "Mum's &quot;Fish &amp; &lt;Prawn&gt;&quot;<br>Curry" ∧
  unescape_html (escape_html title) = title.
Proof. by vm_compute. Qed.
End EscapeHtml.

Section Card.
Import CardExample.
(** C8. The failing input: the ingredient line [---Salt & <b>Pepper</b>---]
    is rendered as a subsection header that holds its title unescaped,
    and so does the card of a recipe with that line, where the method path
    escapes the title of the same line. *)
Theorem ingredient_section_header_is_not_escaped :
  build_ingredients_html ["---Salt & <b>Pepper</b>---"]
    = "<li class=" +:+ dq +:+ "ingredient-section" +:+ dq
        +:+ ">Salt & <b>Pepper</b></li>"
  ∧ contains ">Salt & <b>Pepper</b></li>"
      (build_recipe_card (λ _, false) ∅ salt_and_pepper) = true
  ∧ contains (escape_html "Salt & <b>Pepper</b>")
      (build_recipe_card (λ _, false) ∅ salt_and_pepper) = false
  ∧ build_method_html "---Salt & <b>Pepper</b>---"
    = "<h4 class=" +:+ dq +:+ "method-subsection" +:+ dq
        +:+ ">Salt &amp; &lt;b&gt;Pepper&lt;/b&gt;</h4>"
  ∧ escape_html "Salt & <b>Pepper</b>" = "Salt &amp; &lt;b&gt;Pepper&lt;/b&gt;".
Proof. by vm_compute. Qed.
End Card.

Section Prompt.
Import PromptSpec.

Lemma type_guidance_unknown (recipe_type : string) :
  recipe_type ≠ "typed" → recipe_type ≠ "handwritten" →
  recipe_type ≠ "mixed" → type_guidance !! recipe_type = None.
Proof.
  intros. unfold type_guidance.
  by rewrite !lookup_insert_ne, lookup_empty.
Qed.

Lemma getitem_handwritten :
  getitem type_guidance "handwritten" = Ok handwritten_text.
Proof. by vm_compute. Qed.

Lemma guidance_for_total recipe_type :
  ∃ text, guidance_for recipe_type = Ok text.
Proof. unfold guidance_for. rewrite getitem_handwritten. eauto. Qed.

Lemma guidance_for_unknown recipe_type :
  recipe_type ≠ "typed" → recipe_type ≠ "handwritten" →
  recipe_type ≠ "mixed" →
  guidance_for recipe_type = Ok handwritten_text.
Proof.
  intros. unfold guidance_for.
  by rewrite getitem_handwritten, type_guidance_unknown.
Qed.

Lemma guidance_for_handwritten : guidance_for "handwritten" = Ok handwritten_text.
Proof. by vm_compute. Qed.

(** C10. [run_gpt4o_vision] is total in its [recipe_type] argument: the
    prompt is built for every classification string, no lookup raises,
    and for a string that is not [typed], [handwritten] or [mixed] the
    prompt holds the guidance of [handwritten], so that the call behaves
    as it does for [handwritten]. *)
Theorem prompt_total_with_handwritten_fallback :
  (∀ paths recipe_type, ∃ prompt, build_prompt paths recipe_type = Ok prompt) ∧
  (∀ paths recipe_type,
     recipe_type ≠ "typed" → recipe_type ≠ "handwritten" →
     recipe_type ≠ "mixed" →
     build_prompt paths recipe_type
       = Ok (prompt_text handwritten_text (page_note paths))
     ∧ ∀ w st, run_gpt4o_vision w paths recipe_type st
               = run_gpt4o_vision w paths "handwritten" st).
Proof.
  split.
  - intros paths rt. unfold build_prompt.
    destruct (guidance_for_total rt) as [t ->]. eauto.
  - intros paths rt H1 H2 H3.
    assert (E : build_prompt paths rt = build_prompt paths "handwritten").
    { unfold build_prompt.
      by rewrite guidance_for_unknown, guidance_for_handwritten. }
    split.
    + rewrite E. unfold build_prompt. by rewrite guidance_for_handwritten.
    + intros w st. unfold run_gpt4o_vision. by rewrite E.
Qed.

Lemma prompt_total_with_handwritten_fallback_witness :
  build_prompt ["Images/a.jpg"] "scribbled"
    = Ok (prompt_text handwritten_text (page_note ["Images/a.jpg"])).
Proof.
  apply (proj2 prompt_total_with_handwritten_fallback); done.
Defined.
End Prompt.

Section Resize.
Import ResizeCheck.

Lemma check_all_true : forallb check_row sizes = true.
Proof. vm_compute. reflexivity. Qed.

Lemma in_sizes d : 1 ≤ d < 1500 → In (d, float_of_Z d) sizes.
Proof.
  intros Hd. unfold sizes. apply in_map_iff.
  exists (Z.to_nat d). rewrite Z2Nat.id by lia. split; [done|].
  apply in_seq. lia.
Qed.

Lemma check_pair_true d m :
  1 ≤ d → d ≤ m → m < 1500 →
  rounds_to_1500 (d =? m)
    (PrimFloat.mul (float_of_Z d)
       (PrimFloat.div (float_of_Z 1500) (float_of_Z m))) = true.
Proof.
  intros H1 H2 H3.
  assert (Hm : In (m, float_of_Z m) sizes) by (apply in_sizes; lia).
  assert (Hd : In (d, float_of_Z d) sizes) by (apply in_sizes; lia).
  pose proof (proj1 (forallb_forall check_row sizes) check_all_true
                _ Hm) as Hrow.
  pose proof (proj1 (forallb_forall
                       (λ d, check_pair d (m, float_of_Z m)) sizes) Hrow
                _ Hd) as H.
  unfold check_pair in H. cbn [fst snd] in H.
  replace (d <=? m) with true in H by (symmetry; apply Z.leb_le; lia).
  exact H.
Qed.

Lemma rounds_to_1500_le exact x :
  rounds_to_1500 exact x = true → cvRound x ≤ 1500.
Proof.
  unfold rounds_to_1500, cvRound. intros H.
  repeat (apply andb_prop in H as [H ?]).
  destruct (PrimFloat.ltb (abs x) 0x1p-9); [done|].
  destruct (PrimFloat.ltb (abs x) 0x1p31); [|done].
  destruct (PrimFloat.ltb x 0); [done|].
  destruct exact.
  - match goal with E : Uint63.eqb _ _ = true |- _ =>
      apply Uint63.eqb_correct in E; rewrite E end. done.
  - match goal with E : Uint63.leb _ _ = true |- _ =>
      apply Uint63.leb_spec in E end. done.
Qed.

Lemma rounds_to_1500_eq x :
  rounds_to_1500 true x = true → cvRound x = 1500.
Proof.
  unfold rounds_to_1500, cvRound. intros H.
  repeat (apply andb_prop in H as [H ?]).
  destruct (PrimFloat.ltb (abs x) 0x1p-9); [done|].
  destruct (PrimFloat.ltb (abs x) 0x1p31); [|done].
  destruct (PrimFloat.ltb x 0); [done|].
  match goal with E : Uint63.eqb _ _ = true |- _ =>
    apply Uint63.eqb_correct in E; rewrite E end. done.
Qed.

Lemma scaled_le d m :
  1 ≤ d → d ≤ m → m < 1500 →
  cvRound (PrimFloat.mul (float_of_Z d)
             (PrimFloat.div (float_of_Z 1500) (float_of_Z m))) ≤ 1500.
Proof. intros. by eapply rounds_to_1500_le, check_pair_true. Qed.

Lemma scaled_eq m :
  1 ≤ m → m < 1500 →
  cvRound (PrimFloat.mul (float_of_Z m)
             (PrimFloat.div (float_of_Z 1500) (float_of_Z m))) = 1500.
Proof.
  intros. apply rounds_to_1500_eq.
  rewrite <- (Z.eqb_refl m) at 1. by apply check_pair_true.
Qed.

Lemma upscale_small (img : image) :
  1 ≤ rows img → 1 ≤ cols img → Z.max (rows img) (cols img) < 1500 →
  Z.max (rows (upscale img)) (cols (upscale img)) = 1500.
Proof.
  intros Hr Hc Hm. unfold upscale.
  destruct (Z.ltb_spec (Z.max (rows img) (cols img)) 1500); [|lia].
  unfold resize; simpl.
  destruct (Z.max_spec (rows img) (cols img)) as [[Hlt E]|[Hle E]]; rewrite E.
  - rewrite (scaled_eq (cols img)) by lia.
    pose proof (scaled_le (rows img) (cols img)). lia.
  - rewrite (scaled_eq (rows img)) by lia.
    pose proof (scaled_le (cols img) (rows img)). lia.
Qed.

Lemma upscale_large (img : image) :
  1500 ≤ Z.max (rows img) (cols img) → upscale img = img.
Proof.
  intros Hm. unfold upscale.
  by destruct (Z.ltb_spec (Z.max (rows img) (cols img)) 1500); [lia|].
Qed.
End Resize.

Section Paths.
Import OcrSpec.


End Paths.

Section Loop.
Import OcrSpec.
Variable w : env.


Lemma frame_refl st : frame st st.
Proof. by split. Qed.

Lemma frame_trans st1 st2 st3 : frame st1 st2 → frame st2 st3 → frame st1 st3.
Proof.
  intros [F1 S1] [F2 S2]. split; [|congruence].
  intros p Hp. by rewrite F2, F1.
Qed.





Lemma preprocess_spec image_path name output_path st :
  preprocess_for_tesseract image_path name output_path st =
    match fs st !! image_path with
    | Some (Picture img) =>
      (Ok (Some output_path),
       {| fs := <[output_path := Picture (preprocess_image img)]> (fs st);
          out := out st; slept := slept st |})
    | _ =>
      (Ok None,
       {| fs := fs st; out := out st ++ [WarnCouldNotLoad name];
          slept := slept st |})
    end.
Proof.
  unfold preprocess_for_tesseract, mbind, M_bind, imread.
  by destruct (fs st !! image_path) as [[]|].
Qed.


(** One round of the loop on an image that is missing. *)
Lemma tesseract_loop_missing rid name rest acc st :
  on_disk st name = false →
  tesseract_loop w rid (name :: rest) acc st
  = tesseract_loop w rid rest acc
      {| fs := fs st; out := out st ++ [WarnNotFound name];
         slept := slept st |}.
Proof.
  intros E. cbn [tesseract_loop]. unfold mbind, M_bind, path_exists at 1.
  fold (on_disk st name). by rewrite E.
Qed.

(** One round of the loop on an image that exists: the state after the
    preprocessing, then the recognition if the preprocessed file
    exists. *)
Lemma tesseract_loop_found rid name rest acc st :
  on_disk st name = true →
  tesseract_loop w rid (name :: rest) acc st
  = let st1 :=
      (preprocess_for_tesseract (pjoin IMAGES_DIR name) name
         (preproc_path rid name) st).2 in
    if bool_decide (is_Some (fs st1 !! preproc_path rid name)) then
      match image_to_string w (preproc_path rid name) with
      | Ok text =>
        tesseract_loop w rid rest (acc ++ [strip_ws text])
          {| fs := fs st1;
             out := out st1 ++ [TesseractChars (String.length (strip_ws text))];
             slept := slept st1 |}
      | Raise e => (Raise e, st1)
      end
    else tesseract_loop w rid rest acc st1.
Proof.
  intros E. cbn [tesseract_loop]. unfold mbind, M_bind, path_exists at 1.
  fold (on_disk st name). rewrite E. cbn [negb]. unfold preproc_path.
  destruct (preprocess_for_tesseract _ _ _ st) as [o st1] eqn:Epre.
  rewrite preprocess_spec in Epre.
  assert (Eo : ∃ a, o = Ok a)
    by (destruct (fs st !! pjoin IMAGES_DIR name) as [[]|];
        injection Epre as <- _; eauto).
  destruct Eo as [a ->]. cbn [snd].
  unfold path_exists, run_tesseract, lift, mbind, M_bind, mret, M_ret, print.
  destruct (bool_decide _); [|done].
  by destruct (image_to_string w _).
Qed.

Lemma preprocess_frame rid name st :
  let st1 := (preprocess_for_tesseract (pjoin IMAGES_DIR name) name
                (preproc_path rid name) st).2 in
  frame st st1 ∧
  (∃ log, out st1 = out st ++ log ∧ not_found_warnings log = []) ∧
  (decodes st name → is_Some (fs st1 !! preproc_path rid name)).
Proof.
  cbv zeta. rewrite preprocess_spec.
  destruct (fs st !! pjoin IMAGES_DIR name) as [c|] eqn:E; cbn [snd].
  2: { split; [by split|]. split; [by eexists [_]|].
       intros [img ?]. congruence. }
  destruct c; cbn [snd].
  2-5: (split; [by split|]; split; [by eexists [_]|];
        intros [img ?]; congruence).
  split; [|split].
  - split; [|done]. intros p Hp. cbn [fs].
    apply lookup_insert_ne. intros <-. apply Hp. by eexists.
  - exists []. by rewrite app_nil_r.
  - intros _. cbn [fs]. rewrite lookup_insert_eq. by eexists.
Qed.


End Loop.

Section Vision.
Import OcrSpec.
Variable w : env.





Lemma existing_paths_spec images st :
  existing_paths images st
  = (Ok (List.map (pjoin IMAGES_DIR) (existing st images)), st).
Proof.
  induction images as [|name rest IH]; [done|].
  cbn [existing_paths]. unfold mbind, M_bind, path_exists at 1.
  rewrite IH. unfold existing. cbn [List.filter]. fold (on_disk st name).
  by destruct (on_disk st name).
Qed.

(** The vision call reads the files it is given and changes nothing. *)
Lemma image_parts_frame n paths :
  ∀ i content st st',
    (∀ p, In p paths → fs st' !! p = fs st !! p) →
    image_parts n i paths content st'
    = ((image_parts n i paths content st).1, st').
Proof.
  induction paths as [|p rest IH]; intros i content st st' H; [done|].
  cbn [image_parts]. unfold mbind, M_bind, encode_image_base64.
  rewrite (H p) by by left.
  destruct (fs st !! p); [|done].
  apply IH. intros q Hq. apply H. by right.
Qed.

Lemma run_gpt4o_vision_frame paths rtype st st' :
  (∀ p, In p paths → fs st' !! p = fs st !! p) →
  run_gpt4o_vision w paths rtype st'
  = ((run_gpt4o_vision w paths rtype st).1, st').
Proof.
  intros H. unfold run_gpt4o_vision, mbind, M_bind, lift.
  destruct (build_prompt paths rtype) as [prompt|e]; [|done].
  rewrite (image_parts_frame _ _ _ _ st st' H).
  destruct (image_parts _ _ _ _ st) as [[content|e] st1]; cbn [fst]; [|done].
  by destruct (chat_create w _).
Qed.

Lemma run_gpt4o_vision_state paths rtype st :
  run_gpt4o_vision w paths rtype st
  = ((run_gpt4o_vision w paths rtype st).1, st).
Proof. by apply run_gpt4o_vision_frame. Qed.



End Vision.

Section Recipe.
Import OcrSpec.
Variable w : env.


End Recipe.

Section Batch.
Import OcrSpec.
Variable w : env.

Lemma tesseract_total_recognizes st rid images :
  tesseract_total w → recognizes w st rid images.
Proof. intros H name _ _. apply H. Qed.

Lemma tesseract_total_batch st recipes :
  tesseract_total w → batch_recognizes w st recipes.
Proof. intros H r _. by apply tesseract_total_recognizes. Qed.






Lemma run_pipeline_unfold st :
  run_pipeline w st
  = match fs st !! AUDIT_FILE with
    | Some (Audit recipes) =>
      match process_all w 0 (length recipes) recipes []
              {| fs := fs st;
                 out := out (after_banner st)
                          ++ [FoundRecipes (length recipes)];
                 slept := slept st |} with
      | (Ok rs, st1) =>
        (Ok rs,
         {| fs := <[RESULTS_FILE := Json rs]> (fs st1);
            out := out st1 ++ [Rule; Complete; SavedTo RESULTS_FILE;
                               TesseractOutputs TESSERACT_DIR;
                               Gpt4oOutputs GPT4O_DIR; Rule];
            slept := slept st1 |})
      | (Raise e, st1) => (Raise e, st1)
      end
    | Some _ => (Raise "JSONDecodeError", after_banner st)
    | None => (Raise "FileNotFoundError", after_banner st)
    end.
Proof.
  unfold run_pipeline.
  unfold mbind at 1 2 3 4. unfold M_bind at 1 2 3 4. unfold print, load_audit.
  cbn [fs out slept]. fold (after_banner st).
  destruct (fs st !! AUDIT_FILE) as [[| | |recipes|]|]; try done.
  unfold mbind at 1 2. unfold M_bind at 1 2. cbn [fs out slept].
  destruct (process_all _ _ _ _ _ _) as [[rs|e] st1]; [|done].
  unfold mbind, M_bind, write_file, mret, M_ret. cbn [fs out slept].
  by rewrite <- !app_assoc.
Qed.


End Batch.

Section Claims.
Import OcrSpec Examples.
























End Claims.

(* ===================================================================== *)
(** * Further properties *)
(* ===================================================================== *)

Import OcrSpec RunSpec.

Section Untouched.
Import RunSpec.
Variable w : env.


Lemma results_file_not_per_recipe : ¬ per_recipe_output RESULTS_FILE.
Proof. intros [[x E]|[[x E]|[x E]]]; cbv in E; congruence. Qed.

Lemma frame_others st st' : frame st st' → others_untouched st st'.
Proof. intros [F _] p Hp. apply F. intros Hpre. apply Hp. by left. Qed.

Lemma others_untouched_trans st1 st2 st3 :
  others_untouched st1 st2 → others_untouched st2 st3 →
  others_untouched st1 st3.
Proof. intros H1 H2 p Hp. by rewrite H2, H1. Qed.

(** The recognition loop changes preprocessed files and the log only,
    whatever its outcome. *)
Lemma tesseract_loop_frame rid images :
  ∀ acc st, frame st (tesseract_loop w rid images acc st).2.
Proof.
  induction images as [|name rest IH]; intros acc st; [apply frame_refl|].
  destruct (on_disk st name) eqn:Edisk.
  - rewrite tesseract_loop_found by done.
    destruct (preprocess_frame rid name st) as (F1 & _ & _).
    set (st1 := (preprocess_for_tesseract _ _ _ st).2) in *. cbv zeta.
    destruct (bool_decide _).
    + destruct (image_to_string w _) as [text|e]; [|done].
      eapply frame_trans; [exact F1|].
      eapply frame_trans; [|apply IH]. by split.
    + eapply frame_trans; [exact F1|apply IH].
  - rewrite tesseract_loop_missing by done.
    eapply frame_trans; [|apply IH]. by split.
Qed.

Lemma vision_step_others rid rtype paths st :
  others_untouched st (vision_step w rid rtype paths st).2.
Proof.
  destruct paths as [|p paths]; [done|].
  unfold vision_step, try_except, mbind, M_bind.
  rewrite run_gpt4o_vision_state.
  destruct (run_gpt4o_vision w (p :: paths) rtype st).1 as [text|e]; [|done].
  intros q Hq. cbn [snd fs]. apply lookup_insert_ne.
  intros <-. apply Hq. right. right. by eexists.
Qed.

Lemma process_recipe_others i n r st :
  others_untouched st (process_recipe w i n r st).2.
Proof.
  unfold process_recipe.
  unfold mbind at 1 2 3 4. unfold M_bind at 1 2 3 4. unfold print.
  cbn [fs out slept].
  set (st_a := {| fs := fs st; out := _; slept := slept st |}).
  pose proof (tesseract_loop_frame (id r) (best_images r) [] st_a) as F.
  destruct (tesseract_loop _ _ _ _ _) as [[texts|e] st_b]; cbn [snd] in F.
  2: { apply frame_others. eapply frame_trans; [|exact F]. by split. }
  unfold mbind at 1. unfold M_bind at 1. unfold write_file.
  unfold mbind at 1. unfold M_bind at 1. rewrite existing_paths_spec.
  unfold mbind at 1. unfold M_bind at 1.
  set (st_c := {| fs := <[_ := _]> (fs st_b); out := out st_b;
                  slept := slept st_b |}).
  assert (Oc : others_untouched st st_c).
  { intros p Hp. subst st_c. cbn [fs].
    rewrite lookup_insert_ne
      by (intros <-; apply Hp; right; left; by eexists).
    apply (frame_others st st_b); [|done].
    eapply frame_trans; [|exact F]. by split. }
  pose proof (vision_step_others (id r) (type r)
                (List.map (pjoin IMAGES_DIR) (existing st_c (best_images r)))
                st_c) as Ov.
  destruct (vision_step _ _ _ _ _) as [[v|e] st_d]; cbn [snd] in *;
    by eapply others_untouched_trans.
Qed.

Lemma process_all_others n recipes :
  ∀ i acc st, others_untouched st (process_all w i n recipes acc st).2.
Proof.
  induction recipes as [|r rest IH]; intros i acc st; [done|].
  cbn [process_all]. unfold mbind, M_bind.
  pose proof (process_recipe_others i n r st) as O1.
  destruct (process_recipe w i n r st) as [[rec|e] st1]; cbn [snd] in *;
    [|done].
  eapply others_untouched_trans; [exact O1|apply IH].
Qed.


(** X2. The combined results file is written at the very end only: a
    run that ends by an exception, of the audit or of the recognizer,
    leaves the file as it was, so the records of the recipes done so far
    are not saved together. *)
Theorem failed_run_writes_no_combined_results st e :
  (run_pipeline w st).1 = Raise e →
  fs (run_pipeline w st).2 !! RESULTS_FILE = fs st !! RESULTS_FILE.
Proof.
  rewrite run_pipeline_unfold.
  destruct (fs st !! AUDIT_FILE) as [[| | |recipes|]|]; try done.
  set (st0 := {| fs := fs st; out := _; slept := slept st |}).
  pose proof (process_all_others (length recipes) recipes 0 [] st0
                RESULTS_FILE results_file_not_per_recipe) as O.
  by destruct (process_all _ _ _ _ _ _) as [[rs|e'] st1].
Qed.
End Untouched.


Lemma failed_run_writes_no_combined_results_witness :
  fs (run_pipeline Examples.failing_tesseract Examples.one_page_missing).2
    !! RESULTS_FILE
  = None.
Proof.
  apply (failed_run_writes_no_combined_results Examples.failing_tesseract
           Examples.one_page_missing "TesseractError").
  reflexivity.
Defined.

Section Persist.
Variable w : env.





End Persist.



Section Files.
Variable w : env.








End Files.



Section Request.
Import VisionSpec.
Variable w : env.


Lemma image_parts_missing n paths p :
  ∀ i content st,
    In p paths → fs st !! p = None →
    image_parts n i paths content st = (Raise "FileNotFoundError", st).
Proof.
  induction paths as [|q rest IH]; intros i content st Hin Hp; [done|].
  cbn [image_parts]. unfold mbind, M_bind, encode_image_base64.
  destruct (fs st !! q) as [c|] eqn:Eq; [|done].
  apply IH; [|done]. destruct Hin as [->|]; [congruence|done].
Qed.


(** X6. When the file of a page is missing, [run_gpt4o_vision] raises the
    exception of [open] and sends no request: the result does not depend
    on the service. *)
Theorem vision_call_raises_on_a_missing_file paths rtype st p :
  In p paths → fs st !! p = None →
  run_gpt4o_vision w paths rtype st = (Raise "FileNotFoundError", st).
Proof.
  intros Hin Hp.
  assert (∃ prompt, build_prompt paths rtype = Ok prompt) as [prompt Ep].
  { unfold build_prompt. destruct (guidance_for_total rtype) as [g ->]. eauto. }
  unfold run_gpt4o_vision, mbind, M_bind, lift. rewrite Ep.
  by rewrite (image_parts_missing _ _ p).
Qed.
End Request.


Lemma vision_call_raises_on_a_missing_file_witness :
  run_gpt4o_vision Examples.failing_vision
    ["Images/ball_curry_1.jpg"; "Images/ball_curry_2.jpg"] "typed"
    Examples.one_page_missing
  = (Raise "FileNotFoundError", Examples.one_page_missing).
Proof.
  apply (vision_call_raises_on_a_missing_file Examples.failing_vision _ _ _
           "Images/ball_curry_2.jpg").
  - right. by left.
  - reflexivity.
Defined.

Section Stale.
Variable w : env.

End Stale.


(** X8. Preprocessing is idempotent on the size: an image that went
    through the preprocessing keeps its dimensions when preprocessed
    again. *)
Theorem preprocess_image_size_is_stable (img : image) :
  1 ≤ rows img → 1 ≤ cols img →
  preprocess_image (preprocess_image img) = preprocess_image img.
Proof.
  intros Hr Hc.
  unfold preprocess_image, cvtColor_gray, clahe_apply, adaptiveThreshold,
    fastNlMeansDenoising.
  destruct (Z.lt_ge_cases (Z.max (rows img) (cols img)) 1500) as [Hs|Hl].
  - apply upscale_large. rewrite upscale_small by done. lia.
  - by rewrite !upscale_large by (rewrite ?upscale_large; done).
Qed.

Lemma preprocess_image_size_is_stable_witness :
  preprocess_image (preprocess_image {| rows := 1000; cols := 700 |})
  = preprocess_image {| rows := 1000; cols := 700 |}.
Proof. apply preprocess_image_size_is_stable; simpl; lia. Defined.

Section Ratio.
Import RatioCheck.

Lemma check_ratio_all : forallb check_ratio_row int_sizes = true.
Proof. vm_compute. reflexivity. Qed.

Lemma in_int_sizes d : 1 ≤ d < 1500 → In (Uint63.of_Z d) int_sizes.
Proof.
  intros Hd. unfold int_sizes. apply in_map_iff.
  exists (Z.to_nat d). rewrite Z2Nat.id by lia. split; [done|].
  apply in_seq. lia.
Qed.

Lemma check_ratio_true d m :
  1 ≤ d → d ≤ m → m < 1500 →
  nearest (Uint63.of_Z d) (Uint63.of_Z m)
    (PrimFloat.mul (float_of_Z d)
       (PrimFloat.div (float_of_Z 1500) (float_of_Z m))) = true.
Proof.
  intros H1 H2 H3.
  assert (Hm : In (Uint63.of_Z m) int_sizes) by (apply in_int_sizes; lia).
  assert (Hd : In (Uint63.of_Z d) int_sizes) by (apply in_int_sizes; lia).
  pose proof (proj1 (forallb_forall check_ratio_row int_sizes)
                check_ratio_all _ Hm) as Hrow.
  pose proof (proj1 (forallb_forall (check_ratio (Uint63.of_Z m)) int_sizes)
                Hrow _ Hd) as H.
  unfold check_ratio in H.
  replace (Uint63.leb (Uint63.of_Z d) (Uint63.of_Z m)) with true in H.
  - exact H.
  - symmetry. apply Uint63.leb_spec. rewrite !Uint63.of_Z_spec.
    change wB with 9223372036854775808.
    rewrite !Z.mod_small by lia. lia.
Qed.

Lemma nearest_spec d m x :
  0 ≤ d < 1500 → 0 ≤ m < 1500 →
  nearest (Uint63.of_Z d) (Uint63.of_Z m) x = true →
  2 * Z.abs (cvRound x * m - 1500 * d) ≤ m.
Proof.
  intros Hd Hm. unfold nearest, cvRound. intros H.
  repeat (apply andb_prop in H as [H ?]).
  destruct (PrimFloat.ltb (abs x) 0x1p-9); [done|].
  destruct (PrimFloat.ltb (abs x) 0x1p31); [|done].
  destruct (PrimFloat.ltb x 0); [done|].
  match goal with E : _ && _ = true |- _ =>
    apply andb_prop in E as [Er Ediff] end.
  apply Uint63.leb_spec in Er. change (Uint63.to_Z 1500%uint63) with 1500 in Er.
  set (r := cvRound_pos (abs x)) in *.
  pose proof (Uint63.to_Z_bounded r) as Br.
  change wB with 9223372036854775808 in *.
  assert (Ed : Uint63.to_Z (Uint63.of_Z d) = d).
  { rewrite Uint63.of_Z_spec. change wB with 9223372036854775808.
    apply Z.mod_small. lia. }
  assert (Em : Uint63.to_Z (Uint63.of_Z m) = m).
  { rewrite Uint63.of_Z_spec. change wB with 9223372036854775808.
    apply Z.mod_small. lia. }
  assert (El : Uint63.to_Z (Uint63.mul r (Uint63.of_Z m)) = Uint63.to_Z r * m).
  { rewrite Uint63.mul_spec, Em. change wB with 9223372036854775808.
    apply Z.mod_small. nia. }
  assert (Eh : Uint63.to_Z (Uint63.mul 1500 (Uint63.of_Z d)) = 1500 * d).
  { rewrite Uint63.mul_spec, Ed. change (Uint63.to_Z 1500%uint63) with 1500.
    change wB with 9223372036854775808. apply Z.mod_small. nia. }
  apply Uint63.leb_spec in Ediff. rewrite Em in Ediff.
  rewrite Uint63.mul_spec in Ediff. change (Uint63.to_Z 2%uint63) with 2 in Ediff.
  change wB with 9223372036854775808 in Ediff.
  destruct (Uint63.leb _ _) eqn:Ec.
  - apply Uint63.leb_spec in Ec. rewrite El, Eh in Ec.
    rewrite Uint63.sub_spec, El, Eh in Ediff.
    change wB with 9223372036854775808 in Ediff.
    rewrite (Z.mod_small (1500 * d - _)) in Ediff by nia.
    rewrite Z.mod_small in Ediff by nia. lia.
  - apply Bool.not_true_iff_false in Ec. rewrite Uint63.leb_spec in Ec.
    rewrite El, Eh in Ec.
    rewrite Uint63.sub_spec, El, Eh in Ediff.
    change wB with 9223372036854775808 in Ediff.
    rewrite (Z.mod_small (_ - 1500 * d)) in Ediff by nia.
    rewrite Z.mod_small in Ediff by nia. lia.
Qed.

Lemma scaled_nearest d m :
  1 ≤ d → d ≤ m → m < 1500 →
  2 * Z.abs (cvRound (PrimFloat.mul (float_of_Z d)
                        (PrimFloat.div (float_of_Z 1500) (float_of_Z m)))
             * m - 1500 * d) ≤ m.
Proof.
  intros. apply nearest_spec; [lia..|]. by apply check_ratio_true.
Qed.

Lemma nearest_not_below r d m :
  1 ≤ d → d ≤ m → m < 1500 → 2 * Z.abs (r * m - 1500 * d) ≤ m → d ≤ r.
Proof. intros. nia. Qed.

(** X9. The upscaling keeps the proportions: for a decoded image whose
    larger side is below 1500 pixels, each side of the preprocessed image
    is the integer nearest to [1500 / max(h, w)] times the side of the
    input, so no side gets shorter. *)
Theorem upscale_keeps_the_proportions (img : image) :
  1 ≤ rows img → 1 ≤ cols img → Z.max (rows img) (cols img) < 1500 →
  2 * Z.abs (rows (preprocess_image img) * Z.max (rows img) (cols img)
             - 1500 * rows img) ≤ Z.max (rows img) (cols img) ∧
  2 * Z.abs (cols (preprocess_image img) * Z.max (rows img) (cols img)
             - 1500 * cols img) ≤ Z.max (rows img) (cols img) ∧
  rows img ≤ rows (preprocess_image img) ∧
  cols img ≤ cols (preprocess_image img).
Proof.
  intros Hr Hc Hm.
  unfold preprocess_image, cvtColor_gray, clahe_apply, adaptiveThreshold,
    fastNlMeansDenoising, upscale.
  destruct (Z.ltb_spec (Z.max (rows img) (cols img)) 1500); [|lia].
  unfold resize. cbn [rows cols].
  set (m := Z.max (rows img) (cols img)) in *.
  assert (R := scaled_nearest (rows img) m ltac:(lia) ltac:(lia) ltac:(lia)).
  assert (C := scaled_nearest (cols img) m ltac:(lia) ltac:(lia) ltac:(lia)).
  split; [exact R|]. split; [exact C|]. split.
  - apply (nearest_not_below _ _ m); [lia..|exact R].
  - apply (nearest_not_below _ _ m); [lia..|exact C].
Qed.
End Ratio.

Lemma upscale_keeps_the_proportions_witness :
  let img := {| rows := 1000; cols := 700 |} in
  2 * Z.abs (rows (preprocess_image img) * 1000 - 1500 * 1000) ≤ 1000 ∧
  2 * Z.abs (cols (preprocess_image img) * 1000 - 1500 * 700) ≤ 1000 ∧
  1000 ≤ rows (preprocess_image img) ∧
  700 ≤ cols (preprocess_image img).
Proof.
  apply (upscale_keeps_the_proportions {| rows := 1000; cols := 700 |});
    simpl; lia.
Defined.

Import HtmlBuild.

Section Order.

Lemma recipe_map_snoc recipes r :
  recipe_map (recipes ++ [r]) = <[recipe_id r := r]> (recipe_map recipes).
Proof. unfold recipe_map. by rewrite fold_left_app. Qed.

Lemma recipe_map_lookup_Some recipes rid r :
  recipe_map recipes !! rid = Some r → recipe_id r = rid ∧ r ∈ recipes.
Proof.
  induction recipes as [|r' recipes IH] using rev_ind; [done|].
  rewrite recipe_map_snoc. intros E.
  destruct (decide (recipe_id r' = rid)) as [<-|Hne].
  - rewrite lookup_insert_eq in E. injection E as ->.
    split; [done|]. apply elem_of_app. right. by apply list_elem_of_singleton.
  - rewrite lookup_insert_ne in E by done. destruct (IH E) as [? ?].
    split; [done|]. apply elem_of_app. by left.
Qed.


Lemma recipe_map_lookup_NoDup recipes r :
  NoDup (recipe_id <$> recipes) → r ∈ recipes →
  recipe_map recipes !! recipe_id r = Some r.
Proof.
  induction recipes as [|r' recipes IH] using rev_ind; [by intros _ ?%elem_of_nil|].
  rewrite fmap_app, recipe_map_snoc. cbn.
  intros [Hnd [Hnot _]]%NoDup_app [Hin|Hin%list_elem_of_singleton]%elem_of_app.
  - rewrite lookup_insert_ne; [by apply IH|].
    intros E. apply (Hnot (recipe_id r)).
    + by apply list_elem_of_fmap_2.
    + rewrite E. by apply list_elem_of_singleton.
  - subst. apply lookup_insert_eq.
Qed.

Lemma listed_fold m order :
  ∀ acc,
    fold_left (listed_step m) order acc
    = (acc.1 ++ omap (λ rid, m !! rid) order,
       acc.2 ++ (NotInRecipes <$> filter (λ rid, m !! rid = None) order)).
Proof.
  induction order as [|rid order IH]; intros [acc log].
  { cbn. by rewrite !app_nil_r. }
  cbn [fold_left]. rewrite IH. unfold listed_step. cbn [fst snd omap].
  rewrite filter_cons.
  destruct (m !! rid) as [r|] eqn:E; cbn [fst snd]; case_decide; try done;
    cbn; rewrite E; by rewrite <- app_assoc.
Qed.

Lemma unlisted_fold recipes :
  ∀ acc,
    fold_left unlisted_step recipes acc
    = (acc.1 ++ filter (λ r, recipe_id r ∉ RECIPE_ORDER) recipes,
       acc.2 ++ (NotInOrder <$>
                   (recipe_id <$>
                      filter (λ r, recipe_id r ∉ RECIPE_ORDER) recipes))).
Proof.
  induction recipes as [|r recipes IH]; intros [acc log].
  { cbn. by rewrite !app_nil_r. }
  cbn [fold_left]. rewrite IH. unfold unlisted_step. rewrite filter_cons.
  destruct (decide (recipe_id r ∈ RECIPE_ORDER)) as [Hin|Hnot].
  - rewrite bool_decide_eq_true_2 by done. by rewrite decide_False by tauto.
  - rewrite bool_decide_eq_false_2 by done. rewrite decide_True by done.
    cbn. by rewrite <- !app_assoc.
Qed.

Lemma order_recipes_eq recipes :
  order_recipes recipes
  = (omap (λ rid, recipe_map recipes !! rid) RECIPE_ORDER
       ++ filter (λ r, recipe_id r ∉ RECIPE_ORDER) recipes,
     (NotInRecipes <$>
        filter (λ rid, recipe_map recipes !! rid = None) RECIPE_ORDER)
       ++ (NotInOrder <$>
             (recipe_id <$>
                filter (λ r, recipe_id r ∉ RECIPE_ORDER) recipes))).
Proof. unfold order_recipes. by rewrite listed_fold, unlisted_fold. Qed.




Lemma RECIPE_ORDER_NoDup : NoDup RECIPE_ORDER.
Proof. apply (bool_decide_unpack _). by vm_compute. Qed.

Lemma NoDup_omap_lookup recipes (order : list string) :
  NoDup order → NoDup (omap (λ rid, recipe_map recipes !! rid) order).
Proof.
  induction 1 as [|rid order Hnot Hnd IH]; [constructor|].
  cbn [omap list_omap].
  destruct (recipe_map recipes !! rid) as [r|] eqn:E; [|done].
  constructor; [|done].
  intros (rid' & Hin & E')%list_elem_of_omap.
  apply recipe_map_lookup_Some in E as [<- _].
  apply recipe_map_lookup_Some in E' as [<- _]. done.
Qed.

(** X11. When the recipe ids are pairwise distinct, the reordering loses
    no recipe and repeats none: the recipes in display order are a
    permutation of the recipes read. *)
Theorem order_recipes_is_a_permutation recipes :
  NoDup (recipe_id <$> recipes) →
  (order_recipes recipes).1 ≡ₚ recipes.
Proof.
  intros Hnd. rewrite order_recipes_eq. cbn [fst].
  etrans;
    [|apply (filter_app_complement (λ r, recipe_id r ∈ RECIPE_ORDER) recipes)].
  apply Permutation_app; [|done].
  apply NoDup_Permutation.
  - apply NoDup_omap_lookup, RECIPE_ORDER_NoDup.
  - apply NoDup_filter. by eapply NoDup_fmap_1.
  - intros r. rewrite list_elem_of_omap, list_elem_of_filter. split.
    + intros (rid & Hin & E). by apply recipe_map_lookup_Some in E as [<- ?].
    + intros [Hin Hr]. exists (recipe_id r). split; [done|].
      by apply recipe_map_lookup_NoDup.
Qed.
End Order.

Lemma order_recipes_is_a_permutation_witness :
  (order_recipes
     [{| recipe_id := "semolina"; recipe_title := "Semolina";
         recipe_type := "typed"; recipe_ingredients := [];
         recipe_method := ""; recipe_notes := "";
         recipe_source_images := [] |};
      {| recipe_id := "dosais"; recipe_title := "Dosais";
         recipe_type := "handwritten"; recipe_ingredients := [];
         recipe_method := ""; recipe_notes := "";
         recipe_source_images := ["dosais.jpg"] |}]).1
  ≡ₚ [{| recipe_id := "semolina"; recipe_title := "Semolina";
         recipe_type := "typed"; recipe_ingredients := [];
         recipe_method := ""; recipe_notes := "";
         recipe_source_images := [] |};
      {| recipe_id := "dosais"; recipe_title := "Dosais";
         recipe_type := "handwritten"; recipe_ingredients := [];
         recipe_method := ""; recipe_notes := "";
         recipe_source_images := ["dosais.jpg"] |}].
Proof.
  apply order_recipes_is_a_permutation.
  apply (bool_decide_unpack _). by vm_compute.
Defined.

Import GallerySpec.

Section ImageData.
Variable files : disk.

Lemma encode_image_on_disk img_name :
  image_on_disk files img_name = true →
  encode_image files (pjoin IMAGES_DIR img_name)
  = Ok (data_uri files img_name).
Proof.
  unfold image_on_disk, data_uri, encode_image.
  intros [data E]%bool_decide_eq_true. by rewrite E.
Qed.

Lemma encode_all_spec (names : list string) :
  ∀ m0, ∃ m,
    encode_all files names m0 = Ok m ∧
    ∀ name,
      m !! name
      = if decide (name ∈ names ∧ image_on_disk files name = true)
        then Some (data_uri files name) else m0 !! name.
Proof.
  induction names as [|n names IH]; intros m0.
  { exists m0. split; [done|]. intros name.
    rewrite decide_False; [done|]. by intros [?%elem_of_nil _]. }
  cbn [encode_all]. fold (image_on_disk files n).
  destruct (image_on_disk files n) eqn:En.
  - rewrite encode_image_on_disk by done.
    destruct (IH (<[n := data_uri files n]> m0)) as (m & E & L).
    exists m. split; [done|]. intros name. rewrite L.
    destruct (decide (name = n)) as [->|Hne].
    + rewrite lookup_insert_eq.
      rewrite (decide_True (P := n ∈ n :: names ∧ _)) by (split; [left|done]).
      by case_decide.
    + rewrite lookup_insert_ne by done.
      apply decide_ext. rewrite elem_of_cons. tauto.
  - destruct (IH m0) as (m & E & L).
    exists m. split; [done|]. intros name. rewrite L.
    apply decide_ext. rewrite elem_of_cons. split; [tauto|].
    intros [[->|?] Hd]; [congruence|done].
Qed.

Lemma elem_of_source_fold (names : list string) :
  ∀ (s : gset string) name,
    name ∈ fold_left (λ s n, {[n]} ∪ s) names s ↔ name ∈ names ∨ name ∈ s.
Proof.
  induction names as [|n names IH]; intros s name; cbn [fold_left].
  { split; [by right|]. by intros [?%elem_of_nil|]. }
  rewrite IH, elem_of_cons, elem_of_union, elem_of_singleton. tauto.
Qed.

Lemma elem_of_all_image_names_fold (recipes : list Html.recipe) :
  ∀ (s : gset string) name,
    name ∈ fold_left
             (λ names r, fold_left (λ names n, {[n]} ∪ names)
                           (recipe_source_images r) names) recipes s
    ↔ cited recipes name ∨ name ∈ s.
Proof.
  induction recipes as [|r recipes IH]; intros s name; cbn [fold_left].
  { split; [by right|]. intros [(r & ?%elem_of_nil & _)|]; done. }
  rewrite IH, elem_of_source_fold. unfold cited. split.
  - intros [(r' & Hr' & Hn)|[Hn|Hs]]; [left|left|by right].
    + exists r'. split; [by right|done].
    + exists r. split; [by left|done].
  - intros [(r' & [->|Hr']%elem_of_cons & Hn)|Hs]; [by right; left| |by right; right].
    left. by exists r'.
Qed.

Lemma elem_of_sorted_names recipes name :
  name ∈ sorted_names (all_image_names recipes) ↔ cited recipes name.
Proof.
  unfold sorted_names, all_image_names.
  rewrite merge_sort_Permutation, elem_of_elements.
  rewrite elem_of_all_image_names_fold. split; [|by left].
  by intros [?|?%elem_of_empty].
Qed.

Lemma build_image_data_lookup recipes :
  ∃ image_data,
    build_image_data files recipes = Ok image_data ∧
    ∀ name uri,
      image_data !! name = Some uri ↔
      cited recipes name ∧ image_on_disk files name = true ∧
      uri = data_uri files name.
Proof.
  unfold build_image_data.
  destruct (encode_all_spec (sorted_names (all_image_names recipes)) ∅)
    as (m & E & L).
  exists m. split; [done|]. intros name uri. rewrite L.
  case_decide as Hc.
  - rewrite elem_of_sorted_names in Hc. split.
    + intros [= <-]. tauto.
    + by intros (_ & _ & ->).
  - rewrite lookup_empty. split; [done|].
    intros (Hcited & Hd & _). destruct Hc.
    by rewrite elem_of_sorted_names.
Qed.

End ImageData.

Section Gallery.
Variable files : disk.

Lemma append_assoc (a b c : string) : (a +:+ b) +:+ c = a +:+ (b +:+ c).
Proof. induction a as [|x a IH]; simpl; [done|]. by rewrite IH. Qed.

Lemma append_empty_r (a : string) : a +:+ "" = a.
Proof. induction a as [|x a IH]; simpl; [done|]. by rewrite IH. Qed.

Lemma prefix_app_cons c old b :
  String.prefix (String c old) (String c (old +:+ b)) = true.
Proof.
  revert c. induction old as [|d old IH]; intros c; cbn [String.prefix].
  - destruct (ascii_dec c c); [apply prefix_nil|done].
  - destruct (ascii_dec c c); [|done].
    change (String d old +:+ b) with (String d (old +:+ b)). apply IH.
Qed.

Lemma contains_cons sub c r :
  contains sub (String c r) = String.prefix sub (String c r) || contains sub r.
Proof. done. Qed.

Lemma contains_here c0 sub b :
  contains (String c0 sub) (String c0 sub +:+ b) = true.
Proof.
  change (String c0 sub +:+ b) with (String c0 (sub +:+ b)).
  by rewrite contains_cons, prefix_app_cons.
Qed.

Lemma contains_after sub a b :
  contains sub b = true → contains sub (a +:+ b) = true.
Proof.
  intros H. induction a as [|c a IH]; [done|].
  change (String c a +:+ b) with (String c (a +:+ b)).
  by rewrite contains_cons, IH, orb_true_r.
Qed.

Lemma contains_here_gen old b :
  old ≠ "" → contains old (old +:+ b) = true.
Proof. destruct old; [done|]. intros _. apply contains_here. Qed.

Lemma gallery_fold (image_data : gmap string string) title names :
  (∀ name, name ∈ names → image_on_disk files name = true →
           image_data !! name = Some (data_uri files name)) →
  ∀ acc,
    fold_left (image_step (image_on_disk files) image_data title) names acc
    = acc +:+ cat ((λ name, photo_html (data_uri files name) title)
                     <$> List.filter (image_on_disk files) names).
Proof.
  induction names as [|n names IH]; intros H acc; cbn [fold_left].
  { simpl. by rewrite append_empty_r. }
  rewrite IH by (intros name Hn; apply H; by right).
  cbn [List.filter]. unfold image_step.
  destruct (image_on_disk files n) eqn:En.
  - rewrite (H n) by (done || by left).
    cbn [fmap list_fmap cat foldr]. by rewrite append_assoc.
  - by destruct (image_data !! n).
Qed.

Lemma gallery_eq recipes image_data r :
  build_image_data files recipes = Ok image_data →
  r ∈ recipes →
  gallery files image_data r = cat (photos files r).
Proof.
  intros E Hr.
  destruct (build_image_data_lookup files recipes)
    as (m & E' & L).
  rewrite E in E'. injection E' as <-.
  unfold gallery, photos. rewrite gallery_fold; [done|].
  intros name Hn Hd. apply L. split; [|done]. by exists r.
Qed.

Lemma truthy_photo data title rest :
  truthy (photo_html data title +:+ rest) = true.
Proof. done. Qed.

(** X13. With the dictionary [build_html] encodes, the gallery of the
    card of a recipe holds one photo block for each of its source images
    that exists in [IMAGES_DIR], in the order of [source_images], an image
    cited twice shown twice, and nothing for an image that is missing. The
    card holds this gallery, or the notice [No original photo available]
    when none of the source images exists. *)
Theorem gallery_shows_the_source_images_on_disk recipes image_data r :
  build_image_data files recipes = Ok image_data →
  r ∈ recipes →
  gallery files image_data r = cat (photos files r) ∧
  contains
    (match photos files r with [] => no_photo | _ => cat (photos files r) end)
    (build_recipe_card (image_on_disk files) image_data r) = true.
Proof.
  intros E Hr. pose proof (gallery_eq recipes image_data r E Hr) as G.
  split; [exact G|].
  unfold build_recipe_card. cbv zeta.
  change (fold_left _ (recipe_source_images r) "")
    with (gallery files image_data r).
  rewrite G. destruct (photos files r) as [|ph rest] eqn:Eph.
  - cbn [cat foldr truthy].
    repeat first [by apply contains_here_gen | apply contains_after].
  - assert (Hph : ∃ name, ph = photo_html (data_uri files name) (recipe_title r)).
    { unfold photos in Eph.
      destruct (List.filter _ _) as [|name names]; [done|].
      injection Eph as <- _. by eexists. }
    destruct Hph as [name ->].
    cbn [cat foldr]. rewrite truthy_photo.
    repeat first [by apply contains_here_gen | apply contains_after].
Qed.
End Gallery.

Lemma gallery_shows_the_source_images_on_disk_witness :
  ∃ image_data,
    build_image_data scans_on_disk [two_scans] = Ok image_data ∧
    gallery scans_on_disk image_data two_scans
    = cat [photo_html "data:image/png;base64,Qg==" "Dosais";
           photo_html "data:image/jpeg;base64,QQ==" "Dosais";
           photo_html "data:image/png;base64,Qg==" "Dosais"].
Proof.
  eexists. split; [by vm_compute|].
  apply (gallery_shows_the_source_images_on_disk scans_on_disk [two_scans]);
    [by vm_compute|by left].
Defined.

Import PathSpec.

Section MediaType.

Lemma prefix_single c x r :
  String.prefix (String c "") (String x r) = bool_decide (c = x).
Proof.
  cbn [String.prefix]. destruct (ascii_dec c x) as [->|Hne].
  - by rewrite prefix_nil, bool_decide_eq_true_2.
  - by rewrite bool_decide_eq_false_2.
Qed.

Lemma contains_single_cons c x r :
  contains (String c "") (String x r)
  = bool_decide (c = x) || contains (String c "") r.
Proof. cbn [contains]. by rewrite prefix_single. Qed.

Lemma contains_single_nil c : contains (String c "") "" = false.
Proof. done. Qed.

Lemma contains_single_app c a b :
  contains (String c "") (a +:+ b)
  = contains (String c "") a || contains (String c "") b.
Proof.
  induction a as [|x a IH].
  { by rewrite contains_single_nil. }
  change (String x a +:+ b) with (String x (a +:+ b)).
  by rewrite !contains_single_cons, IH, orb_assoc.
Qed.

Lemma path_name_pjoin dir name :
  contains "/" name = false → path_name (pjoin dir name) = name.
Proof.
  intros Hn. unfold pjoin. induction dir as [|c dir IH].
  - change ("" +:+ "/" +:+ name) with (String "/" name).
    cbn [path_name]. by rewrite Hn.
  - change (String c dir +:+ "/" +:+ name)
      with (String c (dir +:+ "/" +:+ name)).
    cbn [path_name]. rewrite IH.
    rewrite (contains_single_app "/" dir ("/" +:+ name)).
    change ("/" +:+ name) with (String "/" name).
    rewrite contains_single_cons, bool_decide_eq_true_2 by done.
    by rewrite orb_true_r.
Qed.

Lemma rsplit_dot_None s : contains "." s = false → rsplit_dot s = None.
Proof.
  induction s as [|c s IH]; [done|].
  rewrite contains_single_cons. intros [Hc Hs]%orb_false_elim.
  cbn [rsplit_dot]. rewrite IH by done.
  apply bool_decide_eq_false in Hc.
  destruct (Ascii.eqb_spec c "."); [by subst|done].
Qed.

Lemma rsplit_dot_last stem ext :
  contains "." ext = false →
  rsplit_dot (stem +:+ "." +:+ ext) = Some (stem, ext).
Proof.
  intros He. induction stem as [|c stem IH].
  - change ("" +:+ "." +:+ ext) with (String "." ext).
    cbn [rsplit_dot]. by rewrite rsplit_dot_None.
  - change (String c stem +:+ "." +:+ ext)
      with (String c (stem +:+ "." +:+ ext)).
    cbn [rsplit_dot]. by rewrite IH.
Qed.

Lemma path_suffix_pjoin dir stem ext :
  stem ≠ "" → ext ≠ "" →
  contains "/" stem = false → contains "/" ext = false →
  contains "." ext = false →
  path_suffix (pjoin dir (stem +:+ "." +:+ ext)) = "." +:+ ext.
Proof.
  intros Hs He Hss Hse Hde. unfold path_suffix.
  rewrite path_name_pjoin, rsplit_dot_last by
    (done || by rewrite !contains_single_app, Hss, Hse).
  by destruct stem, ext.
Qed.

Lemma eqb_media_type ext :
  String.eqb ("." +:+ ext) ".jpg" || String.eqb ("." +:+ ext) ".jpeg"
  = bool_decide (ext ∈ ["jpg"; "jpeg"]).
Proof.
  change ("." +:+ ext) with (String "." ext). cbn [String.eqb Ascii.eqb Bool.eqb].
  destruct (String.eqb_spec ext "jpg") as [->|H1]; [done|].
  destruct (String.eqb_spec ext "jpeg") as [->|H2]; [done|].
  symmetry. apply bool_decide_eq_false.
  rewrite !elem_of_cons, elem_of_nil. tauto.
Qed.

(** X14. The media type follows the extension of the file name, letter
    case apart: the pipeline declares [image/jpeg] for a file whose
    extension is [jpg] or [jpeg] in any case and [image/png] for every
    other extension, and the page builder puts the same media type in the
    data URI of the file. *)
Theorem media_type_follows_the_extension dir stem ext :
  stem ≠ "" → ext ≠ "" →
  contains "/" stem = false → contains "/" ext = false →
  contains "." ext = false →
  media_type_of (pjoin dir (stem +:+ "." +:+ ext))
  = media_type_for (lower ext) ∧
  ∀ (files : disk) data,
    files !! pjoin dir (stem +:+ "." +:+ ext) = Some data →
    encode_image files (pjoin dir (stem +:+ "." +:+ ext))
    = Ok ("data:" +:+ media_type_for (lower ext) +:+ ";base64," +:+ data).
Proof.
  intros Hs He Hss Hse Hde.
  assert (Hm : media_type_of (pjoin dir (stem +:+ "." +:+ ext))
               = media_type_for (lower ext)).
  { unfold media_type_of, media_type_for.
    rewrite path_suffix_pjoin by done.
    change (lower ("." +:+ ext)) with ("." +:+ lower ext).
    by rewrite eqb_media_type. }
  split; [done|]. intros files data E.
  unfold encode_image. unfold disk in *. rewrite E.
  fold (media_type_of (pjoin dir (stem +:+ "." +:+ ext))). by rewrite Hm.
Qed.
End MediaType.

Lemma media_type_follows_the_extension_witness :
  media_type_of (pjoin IMAGES_DIR "IMG_0042.JPG") = "image/jpeg".
Proof.
  apply (media_type_follows_the_extension IMAGES_DIR "IMG_0042" "JPG");
    done.
Defined.

Import HtmlSpec ItemSpec.

Section Strings.

Lemma cmap_app f a b : cmap f (a +:+ b) = cmap f a +:+ cmap f b.
Proof.
  induction a as [|c a IH]; simpl; [done|]. by rewrite IH, append_assoc.
Qed.

Lemma mem_char_app x a b :
  mem_char x (a +:+ b) = mem_char x a || mem_char x b.
Proof.
  induction a as [|c a IH]; simpl; [done|]. by rewrite IH, orb_assoc.
Qed.

Lemma prefix_miss c0 old c r :
  c0 ≠ c → String.prefix (String c0 old) (String c r) = false.
Proof. intros H. cbn [String.prefix]. by destruct (ascii_dec c0 c). Qed.

Lemma prefix_miss_second a b old d r :
  b ≠ d →
  String.prefix (String a (String b old)) (String a (String d r)) = false.
Proof.
  intros H. cbn [String.prefix].
  destruct (ascii_dec a a); [|done]. by destruct (ascii_dec b d).
Qed.

Lemma mem_char_cons_false x c a :
  mem_char x (String c a) = false → x ≠ c ∧ mem_char x a = false.
Proof.
  cbn [mem_char]. intros [H1 H2]%orb_false_elim. split; [|done].
  by apply Ascii.eqb_neq.
Qed.

(** [replace] copies a text in which the first character of [old] does
    not occur. *)
Lemma replace_go_skip c0 old new limit a b :
  mem_char c0 a = false →
  replace_go (String c0 old) new limit 0 (a +:+ b)
  = a +:+ replace_go (String c0 old) new limit 0 b.
Proof.
  induction a as [|c a IH]; [done|].
  intros [Hc Ha]%mem_char_cons_false.
  change (String c a +:+ b) with (String c (a +:+ b)).
  cbn [replace_go]. rewrite prefix_miss by done.
  change (String c a +:+ ?x) with (String c (a +:+ x)).
  destruct limit as [[|k]|]; by rewrite IH.
Qed.

Lemma replace_go_absent c0 old new limit a :
  mem_char c0 a = false →
  replace_go (String c0 old) new limit 0 a = a.
Proof.
  intros H. rewrite <- (append_empty_r a) at 1.
  rewrite replace_go_skip by done. apply append_empty_r.
Qed.

Lemma replace_go_drop old new limit a b :
  replace_go old new limit (String.length a) (a +:+ b)
  = replace_go old new limit 0 b.
Proof.
  induction a as [|c a IH]; [done|].
  change (String c a +:+ b) with (String c (a +:+ b)).
  cbn [replace_go String.length]. apply IH.
Qed.

Lemma replace_go_hit c0 old new limit b :
  limit ≠ Some 0%nat →
  replace_go (String c0 old) new limit 0 (String c0 old +:+ b)
  = new +:+ replace_go (String c0 old) new (Nat.pred <$> limit) 0 b.
Proof.
  intros H. change (String c0 old +:+ b) with (String c0 (old +:+ b)).
  cbn [replace_go]. rewrite prefix_app_cons.
  cbn [String.length Nat.pred]. rewrite replace_go_drop.
  by destruct limit as [[|k]|].
Qed.

Lemma replace_go_exhausted old new s :
  replace_go old new (Some 0%nat) 0 s = s.
Proof. induction s as [|c s IH]; cbn [replace_go]; [done|]. by rewrite IH. Qed.

Lemma contains_skip c0 sub a b :
  mem_char c0 a = false →
  contains (String c0 sub) (a +:+ b) = contains (String c0 sub) b.
Proof.
  induction a as [|c a IH]; [done|].
  intros [Hc Ha]%mem_char_cons_false.
  change (String c a +:+ b) with (String c (a +:+ b)).
  by rewrite contains_cons, prefix_miss, IH.
Qed.

Lemma count_go_skip c0 sub a b :
  mem_char c0 a = false →
  count_go (String c0 sub) 0 (a +:+ b) = count_go (String c0 sub) 0 b.
Proof.
  induction a as [|c a IH]; [done|].
  intros [Hc Ha]%mem_char_cons_false.
  change (String c a +:+ b) with (String c (a +:+ b)).
  cbn [count_go]. by rewrite prefix_miss, IH.
Qed.

Lemma count_go_drop sub a b :
  count_go sub (String.length a) (a +:+ b) = count_go sub 0 b.
Proof.
  induction a as [|c a IH]; [done|].
  change (String c a +:+ b) with (String c (a +:+ b)).
  cbn [count_go String.length]. apply IH.
Qed.

Lemma count_go_hit c0 sub b :
  count_go (String c0 sub) 0 (String c0 sub +:+ b)
  = S (count_go (String c0 sub) 0 b).
Proof.
  change (String c0 sub +:+ b) with (String c0 (sub +:+ b)).
  cbn [count_go]. rewrite prefix_app_cons.
  cbn [String.length Nat.pred]. by rewrite count_go_drop.
Qed.

Lemma prefix_shorter a b s :
  String.prefix (a +:+ b) s = true → String.prefix a s = true.
Proof.
  revert s. induction a as [|c a IH]; intros s; [by rewrite prefix_nil|].
  change (String c a +:+ b) with (String c (a +:+ b)).
  destruct s as [|d s]; cbn [String.prefix]; [done|].
  destruct (ascii_dec c d); [apply IH|done].
Qed.
End Strings.

Section Items.

Ltac by_char c :=
  destruct (ascii_dec c "&") as [->|?];
  [|destruct (ascii_dec c "<") as [->|?];
    [|destruct (ascii_dec c ">") as [->|?];
      [|destruct (ascii_dec c (ascii_of_nat 34)) as [->|?];
        [|destruct (ascii_dec c (ascii_of_nat 10)) as [->|?]]]]].

(** Escaping adds and removes no bracket. *)
Lemma mem_char_escape x s :
  x = "["%char ∨ x = "]"%char →
  mem_char x (cmap esc_char s) = mem_char x s.
Proof.
  intros Hx. induction s as [|c s IH]; [done|].
  cbn [cmap mem_char]. rewrite mem_char_app, IH. f_equal.
  by_char c; [by destruct Hx as [->| ->]..|].
  rewrite esc_char_plain by done. cbn [mem_char]. apply orb_false_r.
Qed.

(** An escaped text holds no [<span]: the only [<] it holds starts a
    [<br>]. *)
Lemma count_escape sub s b :
  count_go (String "<" (String "s" sub)) 0 (cmap esc_char s +:+ b)
  = count_go (String "<" (String "s" sub)) 0 b.
Proof.
  induction s as [|c s IH]; [done|].
  cbn [cmap]. rewrite append_assoc.
  by_char c.
  - change (esc_char "&") with "&amp;". by rewrite count_go_skip.
  - change (esc_char "<") with "&lt;". by rewrite count_go_skip.
  - change (esc_char ">") with "&gt;". by rewrite count_go_skip.
  - change (esc_char (ascii_of_nat 34)) with "&quot;".
    by rewrite count_go_skip.
  - change (esc_char (ascii_of_nat 10) +:+ ?x)
      with (String "<" (String "b" ("r>" +:+ x))).
    cbn [count_go]. rewrite prefix_miss_second by done.
    change (String "b" ("r>" +:+ ?x)) with ("br>" +:+ x).
    by rewrite count_go_skip.
  - rewrite esc_char_plain by done. rewrite count_go_skip; [done|].
    cbn [mem_char]. rewrite orb_false_r. by apply Ascii.eqb_neq.
Qed.

Lemma contains_escape sub s b :
  contains (String "<" (String "s" sub)) (cmap esc_char s +:+ b)
  = contains (String "<" (String "s" sub)) b.
Proof.
  induction s as [|c s IH]; [done|].
  cbn [cmap]. rewrite append_assoc.
  by_char c.
  - change (esc_char "&") with "&amp;". by rewrite contains_skip.
  - change (esc_char "<") with "&lt;". by rewrite contains_skip.
  - change (esc_char ">") with "&gt;". by rewrite contains_skip.
  - change (esc_char (ascii_of_nat 34)) with "&quot;".
    by rewrite contains_skip.
  - change (esc_char (ascii_of_nat 10) +:+ ?x)
      with (String "<" (String "b" ("r>" +:+ x))).
    rewrite contains_cons, prefix_miss_second by done.
    change (String "b" ("r>" +:+ ?x)) with ("br>" +:+ x).
    by rewrite contains_skip.
  - rewrite esc_char_plain by done. rewrite contains_skip; [done|].
    cbn [mem_char]. rewrite orb_false_r. by apply Ascii.eqb_neq.
Qed.

Lemma then_add_test ing :
  startswith ing "Then add:" || startswith ing "Then add"
  = startswith ing "Then add".
Proof.
  unfold startswith.
  destruct (String.prefix "Then add" ing) eqn:E; [apply orb_true_r|].
  rewrite orb_false_r. apply Bool.not_true_iff_false. intros H.
  apply (prefix_shorter "Then add" ":") in H. congruence.
Qed.

Lemma ingredient_step_acc acc ing :
  ingredient_step acc ing = acc +:+ ingredient_step "" ing.
Proof.
  unfold ingredient_step.
  destruct (_ && _); [done|].
  destruct (String.eqb ing ""); [by rewrite append_empty_r|].
  by destruct (_ || _).
Qed.

Lemma build_ingredients_html_cat ingredients :
  ∀ acc,
    fold_left ingredient_step ingredients acc
    = acc +:+ cat (ingredient_step "" <$> ingredients).
Proof.
  induction ingredients as [|ing rest IH]; intros acc; cbn [fold_left].
  { simpl. by rewrite append_empty_r. }
  rewrite IH, ingredient_step_acc.
  cbn [fmap list_fmap cat foldr]. by rewrite append_assoc.
Qed.

Lemma ordinary_step ing :
  ordinary ing = true → ingredient_step "" ing = item ing.
Proof.
  unfold ordinary, header_line.
  intros [Hh Hb]%andb_prop. apply negb_true_iff in Hh, Hb.
  unfold ingredient_step, item. rewrite Hh, then_add_test.
  destruct (String.eqb ing ""); [done|].
  destruct (startswith ing "Then add"); [done|].
  cbv zeta. rewrite escape_html_cmap.
  assert (Hb' : mem_char "[" (cmap esc_char ing) = false)
    by (by rewrite mem_char_escape by (by left)).
  unfold replace.
  rewrite !(replace_go_absent "[" _ _ None (cmap esc_char ing)) by done.
  replace (contains span_open (cmap esc_char ing)) with false; [done|].
  rewrite <- (append_empty_r (cmap esc_char ing)).
  symmetry. apply (contains_escape _ ing "").
Qed.

(** X15. A list of ingredient lines without subsection headers and
    without opening brackets is rendered line by line, in order: nothing
    for an empty line, and for any other line one list item that holds
    the escaped line, marked as an instruction when the line starts with
    [Then add] (the test for [Then add:] adds nothing to it). *)
Theorem ordinary_ingredients_are_escaped_items ingredients :
  Forall (λ ing, ordinary ing = true) ingredients →
  build_ingredients_html ingredients = cat (item <$> ingredients).
Proof.
  intros H. unfold build_ingredients_html.
  rewrite build_ingredients_html_cat. cbn [String.append]. f_equal.
  induction H as [|ing rest Hi _ IH]; [done|].
  cbn [fmap list_fmap]. f_equal; [by apply ordinary_step|exact IH].
Qed.
End Items.

Lemma ordinary_ingredients_are_escaped_items_witness :
  build_ingredients_html ["2 onions & 1 <large> tomato"; ""; "Then add: salt"]
  = "<li>2 onions &amp; 1 &lt;large&gt; tomato</li>"
      +:+ "<li class=" +:+ dq +:+ "ingredient-instruction" +:+ dq
      +:+ ">Then add: salt</li>".
Proof.
  apply (ordinary_ingredients_are_escaped_items
           ["2 onions & 1 <large> tomato"; ""; "Then add: salt"]).
  repeat constructor.
Defined.

Section Notes.

Lemma replace_go_pass old new c r :
  String.prefix old (String c r) = false →
  replace_go old new None 0 (String c r)
  = String c (replace_go old new None 0 r).
Proof. intros H. cbn [replace_go]. by rewrite H. Qed.

Lemma with_note_not_empty before note after :
  String.eqb (with_note before note after) "" = false.
Proof. unfold with_note. by destruct before. Qed.

Lemma bracket_free_escape s :
  bracket_free s = true →
  mem_char "[" (cmap esc_char s) = false ∧
  mem_char "]" (cmap esc_char s) = false.
Proof.
  unfold bracket_free. intros [H1 H2]%andb_prop.
  apply negb_true_iff in H1, H2.
  rewrite !mem_char_escape by tauto. done.
Qed.

(** X16. An ingredient line with one handwritten note,
    [before[Handwritten:note]after] with no other bracket before the end
    of the note and no opening bracket after it, is rendered as one list
    item in which the escaped note, brackets included, is wrapped in one
    [handwritten-note] span, between the escaped texts around it. *)
Theorem handwritten_note_is_wrapped_in_a_span before note after :
  bracket_free before = true → bracket_free note = true →
  mem_char "[" after = false →
  header_line (with_note before note after) = false →
  startswith (with_note before note after) "Then add" = false →
  ingredient_step "" (with_note before note after)
  = "<li>" +:+ escape_html before +:+ span_open +:+ "[Handwritten:"
      +:+ escape_html note +:+ "]</span>" +:+ escape_html after +:+ "</li>".
Proof.
  intros [Bo Bc]%bracket_free_escape [No Nc]%bracket_free_escape Ao Hh Ht.
  assert (Ao' : mem_char "[" (cmap esc_char after) = false)
    by (by rewrite mem_char_escape by (by left)).
  unfold ingredient_step. fold (header_line (with_note before note after)).
  rewrite Hh, with_note_not_empty, then_add_test, Ht. cbv zeta.
  rewrite !escape_html_cmap. unfold with_note. rewrite !cmap_app.
  change (cmap esc_char "[Handwritten:") with "[Handwritten:".
  change (cmap esc_char "]") with "]".
  set (eb := cmap esc_char before) in *.
  set (en := cmap esc_char note) in *.
  set (ea := cmap esc_char after) in *.
  (* the first substitution opens the span *)
  assert (E1 : replace "[Handwritten:" (span_open +:+ "[Handwritten:")
                 (eb +:+ "[Handwritten:" +:+ en +:+ "]" +:+ ea)
               = eb +:+ span_open +:+ "[Handwritten:" +:+ en +:+ "]" +:+ ea).
  { unfold replace. rewrite replace_go_skip by done.
    rewrite replace_go_hit by done.
    change (Nat.pred <$> None) with (@None nat).
    rewrite replace_go_absent, append_assoc; [done|].
    rewrite !mem_char_app, No, Ao'. done. }
  rewrite E1.
  (* the second one finds nothing *)
  assert (E2 : replace "[Handwritten note:" (span_open +:+ "[Note:")
                 (eb +:+ span_open +:+ "[Handwritten:" +:+ en +:+ "]" +:+ ea)
               = eb +:+ span_open +:+ "[Handwritten:" +:+ en +:+ "]" +:+ ea).
  { unfold replace. rewrite replace_go_skip by done.
    rewrite replace_go_skip by done.
    change ("[Handwritten:" +:+ ?x) with (String "[" ("Handwritten:" +:+ x)).
    rewrite replace_go_pass by done.
    rewrite replace_go_skip by done.
    rewrite replace_go_absent; [done|].
    rewrite !mem_char_app, No, Ao'. done. }
  rewrite E2.
  (* one span was opened *)
  assert (E3 : contains span_open
                 (eb +:+ span_open +:+ "[Handwritten:" +:+ en +:+ "]" +:+ ea)
               = true).
  { apply contains_after, contains_here_gen. done. }
  rewrite E3.
  assert (E4 : count "<span"
                 (eb +:+ span_open +:+ "[Handwritten:" +:+ en +:+ "]" +:+ ea)
               = 1%nat).
  { unfold count. subst eb en ea. rewrite count_escape.
    change (span_open +:+ ?x)
      with ("<span" +:+ (" class=" +:+ dq +:+ "handwritten-note" +:+ dq +:+ ">")
              +:+ x).
    rewrite count_go_hit. f_equal.
    rewrite count_go_skip by done. rewrite count_go_skip by done.
    rewrite count_escape. rewrite count_go_skip by done.
    rewrite <- (append_empty_r (cmap esc_char after)).
    by rewrite count_escape. }
  rewrite E4.
  (* and the first closing bracket closes it *)
  assert (E5 : replace_n "]" "]</span>" 1
                 (eb +:+ span_open +:+ "[Handwritten:" +:+ en +:+ "]" +:+ ea)
               = eb +:+ span_open +:+ "[Handwritten:" +:+ en +:+ "]</span>"
                   +:+ ea).
  { unfold replace_n. rewrite replace_go_skip by done.
    rewrite replace_go_skip by done. rewrite replace_go_skip by done.
    rewrite replace_go_skip by done.
    rewrite replace_go_hit by done.
    change (Nat.pred <$> Some 1%nat) with (Some 0%nat).
    by rewrite replace_go_exhausted. }
  rewrite E5. change ("" +:+ ?x) with x. f_equal.
  by rewrite !append_assoc.
Qed.
End Notes.

Lemma handwritten_note_is_wrapped_in_a_span_witness :
  ingredient_step "" "1 tsp salt [Handwritten: or <more>] to taste"
  = "<li>1 tsp salt " +:+ span_open
      +:+ "[Handwritten: or &lt;more&gt;]</span> to taste</li>".
Proof.
  apply (handwritten_note_is_wrapped_in_a_span
           "1 tsp salt " " or <more>" " to taste"); reflexivity.
Defined.

Section Method.




End Method.

